(** * The IONOS DNS API client (providers/dns/ionos/internal/client.go)

    A shallow embedding of the client and of the parts of the Go standard
    library it calls, followed by the properties of the specification.

    Go strings are byte sequences: they are modelled by [string], whose
    characters are the 256 values of [ascii].  Go's [int] status codes and
    record integers are modelled by [Z].  A Go function returning
    [(T, error)] returns a [result T]; one returning only [error] returns an
    [option error], [None] being Go's [nil].  A name of the source that is a
    keyword or a library name here takes a trailing underscore ([Record_],
    [Type_], [String_], [Set_], [Header_]).

    The packages of the Go library are modelled as far as the client uses
    them: [net/url] for URLs without user information and without a
    bracketed IP literal, [encoding/json] for texts in well-formed UTF-8
    stored into the client's types, [net/http] for the construction of a
    request and the fields of a response the client reads.  A response body
    is a sequence of chunks with its state; the transport is a function from
    requests to responses or errors. *)

From Stdlib Require Import String Ascii ZArith NArith List Bool Lia.
From stdpp Require Import gmap strings sorting.
Import ListNotations.
Local Open Scope string_scope.

(** ** types.go: the data model *)

(** Modelled from the spec: the declaration of the vendor's error object is
    not among the sources; section 3 describes the structured part of a
    [ClientError] as a list of vendor-reported error messages.  Each entry has
    a code and a message, read from the JSON keys [code] and [message]. *)
Record Error : Type := mkError { Code : string; Message : string }.

(** Modelled from the spec: the declaration of [ClientError] is not among the
    sources.  [readError] assigns the three fields [StatusCode], [errors] and
    [message]; section 3 describes them as the HTTP status code, the
    structured list of vendor-reported errors and the raw text fallback. *)
Record ClientError : Type := mkClientError {
  errors : list Error;
  StatusCode : Z;
  message : string
}.

(** Modelled from the spec: the declaration of [Zone] is not among the
    sources.  Section 3: identifier and name of a DNS zone; the vendor's zone
    objects also carry the zone type, as [CustomerZone] does. *)
Record Zone : Type := mkZone {
  ZoneID : string;      (* json:"id" *)
  ZoneName : string;    (* json:"name" *)
  ZoneType : string     (* json:"type" *)
}.

(** Modelled from the spec: the declaration of [Record] is not among the
    sources.  Section 3: name, type, content, TTL and optional metadata
    (priority, disabled flag); records are addressed by a vendor-assigned
    identifier. *)
Record Record_ : Type := mkRecord {
  ID : string;          (* json:"id" *)
  Name : string;        (* json:"name" *)
  Content : string;     (* json:"content" *)
  TTL : Z;              (* json:"ttl" *)
  Type_ : string;       (* json:"type" *)
  Priority : Z;         (* json:"prio" *)
  Disabled : bool       (* json:"disabled" *)
}.

(** Modelled from the spec: the declaration of [CustomerZone] is not among
    the sources.  Section 3: a zone plus its embedded list of records, the
    envelope returned by the "get records" endpoint. *)
Record CustomerZone : Type := mkCustomerZone {
  CZID : string;              (* json:"id" *)
  CZName : string;            (* json:"name" *)
  Records : list Record_;     (* json:"records" *)
  CZType : string             (* json:"type" *)
}.

(** Modelled from the spec: the declaration of [RecordsFilter] is not among
    the sources.  Sections 3 and 4.1: an optional set of query parameters
    (record type, name, ...); each field maps to one query parameter through
    its [url] tag and zero-value fields are omitted ([omitempty]). *)
Record RecordsFilter : Type := mkRecordsFilter {
  Suffix : string;        (* url:"suffix,omitempty" *)
  RecordName : string;    (* url:"recordName,omitempty" *)
  RecordType : string     (* url:"recordType,omitempty" *)
}.

(** ** Errors and results *)

(** The values of Go's [error] interface that can reach this client. *)
Inductive error : Type :=
| errorString (s : string)                 (* errors.New, fmt.Errorf without %w *)
| wrapError (msg : string) (err : error)   (* fmt.Errorf("msg: %w", err) *)
| EscapeError (s : string)                 (* url.EscapeError *)
| InvalidHostError (s : string)            (* url.InvalidHostError *)
| invalidPortError (colonPort : string)    (* fmt.Errorf("invalid port %q after host", colonPort) *)
| invalidMethodError (method : string)     (* fmt.Errorf("net/http: invalid method %q", method) *)
| unmodelled (what : string)               (* an input outside the modelled part of a library *)
| url_Error (op : string) (URL : string) (err : error)   (* *url.Error *)
| io_EOF
| io_ErrUnexpectedEOF
| json_SyntaxError                         (* *json.SyntaxError *)
| json_UnmarshalTypeError (Value : string) (* *json.UnmarshalTypeError *)
| ClientErrorPtr (cErr : ClientError).     (* *ClientError *)

Inductive result (A : Type) : Type :=
| Ok (a : A)
| Err (err : error).
Arguments Ok {A} a.
Arguments Err {A} err.

Definition isOk {A} (r : result A) : bool :=
  match r with Ok _ => true | Err _ => false end.

(** ** Bytes *)

Definition byte_le (a b : ascii) : bool := (N_of_ascii a <=? N_of_ascii b)%N.

Definition between (lo hi c : ascii) : bool := byte_le lo c && byte_le c hi.

Definition is_lower (c : ascii) : bool := between "a" "z" c.
Definition is_upper (c : ascii) : bool := between "A" "Z" c.
Definition is_digit (c : ascii) : bool := between "0" "9" c.

Definition to_upper (c : ascii) : ascii :=
  if is_lower c then ascii_of_N (N_of_ascii c - 32) else c.
Definition to_lower (c : ascii) : ascii :=
  if is_upper c then ascii_of_N (N_of_ascii c + 32) else c.

Definition byte_in (c : ascii) (set : string) : bool :=
  existsb (Ascii.eqb c) (list_ascii_of_string set).

(** The double quote, byte 34. *)
Definition dquote : ascii := ascii_of_N 34.

(** ** Package strings *)

Module gostrings.

Fixpoint forall_bytes (p : ascii -> bool) (s : string) : bool :=
  match s with
  | EmptyString => true
  | String c r => p c && forall_bytes p r
  end.

Fixpoint ContainsByte (c : ascii) (s : string) : bool :=
  match s with
  | EmptyString => false
  | String d r => Ascii.eqb c d || ContainsByte c r
  end.

Fixpoint CountByte (c : ascii) (s : string) : nat :=
  match s with
  | EmptyString => O
  | String d r => (if Ascii.eqb c d then 1 else 0) + CountByte c r
  end.

(** [strings.Cut(s, sep)] for a one-byte separator: the text before the
    first [sep], the text after it, and whether [sep] occurs. *)
Fixpoint Cut (sep : ascii) (s : string) : string * string * bool :=
  match s with
  | EmptyString => (EmptyString, EmptyString, false)
  | String c r =>
      if Ascii.eqb c sep then (EmptyString, r, true)
      else let '(before, after, found) := Cut sep r in
           (String c before, after, found)
  end.

Fixpoint HasPrefix (s pre : string) {struct pre} : bool :=
  match pre with
  | EmptyString => true
  | String c pre' =>
      match s with
      | String d s' => Ascii.eqb c d && HasPrefix s' pre'
      | EmptyString => false
      end
  end.

Fixpoint HasSuffixByte (s : string) (c : ascii) : bool :=
  match s with
  | EmptyString => false
  | String d EmptyString => Ascii.eqb d c
  | String _ r => HasSuffixByte r c
  end.

(** [s[:len(s)-1]] for non-empty [s]. *)
Fixpoint dropLast (s : string) : string :=
  match s with
  | EmptyString => EmptyString
  | String _ EmptyString => EmptyString
  | String c r => String c (dropLast r)
  end.

(** [s[n:]]. *)
Fixpoint drop (n : nat) (s : string) : string :=
  match n, s with
  | S n', String _ r => drop n' r
  | _, _ => s
  end.

Definition ToLower (s : string) : string :=
  string_of_list_ascii (map to_lower (list_ascii_of_string s)).

(** [strings.Split(s, "/")]. *)
Fixpoint Split (sep : ascii) (s : string) : list string :=
  match s with
  | EmptyString => [EmptyString]
  | String c r =>
      if Ascii.eqb c sep then EmptyString :: Split sep r
      else match Split sep r with
           | [] => [String c EmptyString]
           | h :: t => String c h :: t
           end
  end.

(** [strings.Join(elems, sep)]. *)
Fixpoint Join (elems : list string) (sep : string) : string :=
  match elems with
  | [] => EmptyString
  | [e] => e
  | e :: r => e ++ sep ++ Join r sep
  end.

End gostrings.

(** ** Package path *)

Module path.

(** The elements kept by [Clean], most recent first.  An empty element and
    [.] are dropped; [..] removes the last kept element, is dropped at the
    root of a rooted path, and is kept at the front of a relative one. *)
Fixpoint clean_elems (rooted : bool) (elems out : list string) : list string :=
  match elems with
  | [] => out
  | e :: rest =>
      if String.eqb e "" || String.eqb e "." then clean_elems rooted rest out
      else if String.eqb e ".." then
        match out with
        | top :: out' =>
            if String.eqb top ".." then clean_elems rooted rest (e :: out)
            else clean_elems rooted rest out'
        | [] =>
            if rooted then clean_elems rooted rest out
            else clean_elems rooted rest [e]
        end
      else clean_elems rooted rest (e :: out)
  end.

(** [path.Clean]: the shortest path equivalent to [p] by lexical
    processing. *)
Definition Clean (p : string) : string :=
  match p with
  | EmptyString => "."
  | String c _ =>
      let rooted := Ascii.eqb c "/" in
      let kept := rev (clean_elems rooted (gostrings.Split "/" p) []) in
      let body := gostrings.Join kept "/" in
      let out := if rooted then String "/" body else body in
      if String.eqb out "" then "." else out
  end.

(** The loop of [path.Join]: empty elements are ignored, the others are
    separated by slashes. *)
Fixpoint join_elems (buf : string) (elem : list string) : string :=
  match elem with
  | [] => buf
  | e :: rest =>
      if negb (String.eqb buf "") || negb (String.eqb e "") then
        join_elems ((if negb (String.eqb buf "") then buf ++ "/" else buf) ++ e) rest
      else join_elems buf rest
  end.

Definition Join (elem : list string) : string :=
  if forallb (String.eqb "") elem then ""
  else Clean (join_elems "" elem).

End path.

(** ** Package net/url *)

Module url.

Inductive encoding : Type :=
| encodePath
| encodePathSegment
| encodeHost
| encodeZone
| encodeUserPassword
| encodeQueryComponent
| encodeFragment.

Definition is_host_mode (mode : encoding) : bool :=
  match mode with encodeHost | encodeZone => true | _ => false end.

Definition is_query_mode (mode : encoding) : bool :=
  match mode with encodeQueryComponent => true | _ => false end.

Definition ishex (c : ascii) : bool :=
  is_digit c || between "a" "f" c || between "A" "F" c.

Definition unhex (c : ascii) : N :=
  if is_digit c then N_of_ascii c - N_of_ascii "0"
  else if between "a" "f" c then N_of_ascii c - N_of_ascii "a" + 10
  else if between "A" "F" c then N_of_ascii c - N_of_ascii "A" + 10
  else 0.

(** [upperhex[n]] for [n < 16]. *)
Definition upperhex (n : N) : ascii :=
  if (n <? 10)%N then ascii_of_N (N_of_ascii "0" + n)
  else ascii_of_N (N_of_ascii "A" + (n - 10)).

(** Whether byte [c] must be escaped when it appears in the part of a URL
    selected by [mode] (RFC 3986). *)
Definition shouldEscape (c : ascii) (mode : encoding) : bool :=
  if is_lower c || is_upper c || is_digit c then false
  else if is_host_mode mode && (byte_in c "!$&'()*+,;=:[]<>" || Ascii.eqb c dquote)
  then false
  else if byte_in c "-_.~" then false
  else if byte_in c "$&+,/:;=?@" then
    match mode with
    | encodePath => Ascii.eqb c "?"
    | encodePathSegment => byte_in c "/;,?"
    | encodeUserPassword => byte_in c "@/?:"
    | encodeQueryComponent => true
    | encodeFragment => false
    | encodeHost | encodeZone => true
    end
  else if (match mode with encodeFragment => true | _ => false end)
          && byte_in c "!()*" then false
  else true.

(** The byte written for [c] by [escape]: itself, [+] for a space in a
    query component, or [%XX]. *)
Definition escape_byte (c : ascii) (mode : encoding) : string :=
  if Ascii.eqb c " " && is_query_mode mode then "+"
  else if shouldEscape c mode then
    String "%" (String (upperhex (N.shiftr (N_of_ascii c) 4))
               (String (upperhex (N.land (N_of_ascii c) 15)) EmptyString))
  else String c EmptyString.

Fixpoint escape (s : string) (mode : encoding) : string :=
  match s with
  | EmptyString => EmptyString
  | String c r => escape_byte c mode ++ escape r mode
  end.

Definition take3 (s : string) : string :=
  match s with
  | String a (String b (String c _)) => String a (String b (String c EmptyString))
  | _ => s
  end.

(** First pass of [unescape]: every [%] must be followed by two hex
    digits, and a host must not contain bytes that need escaping. *)
Fixpoint unescape_check (s : string) (mode : encoding) : option error :=
  match s with
  | EmptyString => None
  | String c r =>
      if Ascii.eqb c "%" then
        match r with
        | String a (String b r') =>
            if negb (ishex a && ishex b) then Some (EscapeError (take3 s))
            else if (match mode with encodeHost => true | _ => false end)
                    && (unhex a <? 8)%N
                    && negb (String.eqb (take3 s) "%25")
            then Some (EscapeError (take3 s))
            else if (match mode with encodeZone => true | _ => false end)
                    && negb (String.eqb (take3 s) "%25")
                    && negb (Ascii.eqb (ascii_of_N (unhex a * 16 + unhex b)) " ")
                    && shouldEscape (ascii_of_N (unhex a * 16 + unhex b)) encodeHost
            then Some (EscapeError (take3 s))
            else unescape_check r' mode
        | _ => Some (EscapeError (take3 s))
        end
      else if is_host_mode mode && (N_of_ascii c <? 128)%N
              && shouldEscape c encodeHost
      then Some (InvalidHostError (String c EmptyString))
      else unescape_check r mode
  end.

(** Second pass of [unescape], on a string that passed the first. *)
Fixpoint unescape_bytes (s : string) (mode : encoding) : string :=
  match s with
  | EmptyString => EmptyString
  | String c r =>
      if Ascii.eqb c "%" then
        match r with
        | String a (String b r') =>
            String (ascii_of_N (unhex a * 16 + unhex b)) (unescape_bytes r' mode)
        | _ => s
        end
      else if Ascii.eqb c "+" && is_query_mode mode then
        String " " (unescape_bytes r mode)
      else String c (unescape_bytes r mode)
  end.

Definition unescape (s : string) (mode : encoding) : result string :=
  match unescape_check s mode with
  | Some e => Err e
  | None => Ok (unescape_bytes s mode)
  end.

Definition QueryEscape (s : string) : string := escape s encodeQueryComponent.
Definition QueryUnescape (s : string) : result string :=
  unescape s encodeQueryComponent.

(** The fields of [url.URL].  [User] is left out: see [Parse]. *)
Record URL : Type := mkURL {
  Scheme : string;
  Opaque : string;
  Host : string;
  Path : string;
  RawPath : string;
  OmitHost : bool;
  ForceQuery : bool;
  RawQuery : string;
  Fragment : string;
  RawFragment : string
}.

Definition zeroURL : URL :=
  mkURL "" "" "" "" "" false false "" "" "".

Definition with_Path (u : URL) (p rp : string) : URL :=
  mkURL (Scheme u) (Opaque u) (Host u) p rp (OmitHost u) (ForceQuery u)
        (RawQuery u) (Fragment u) (RawFragment u).

Definition with_RawQuery (u : URL) (q : string) : URL :=
  mkURL (Scheme u) (Opaque u) (Host u) (Path u) (RawPath u) (OmitHost u)
        (ForceQuery u) q (Fragment u) (RawFragment u).

Definition with_Host (u : URL) (h : string) : URL :=
  mkURL (Scheme u) (Opaque u) h (Path u) (RawPath u) (OmitHost u)
        (ForceQuery u) (RawQuery u) (Fragment u) (RawFragment u).

Definition with_Fragment (u : URL) (f rf : string) : URL :=
  mkURL (Scheme u) (Opaque u) (Host u) (Path u) (RawPath u) (OmitHost u)
        (ForceQuery u) (RawQuery u) f rf.

(** [setPath] sets [Path] and [RawPath] from an encoded path; [RawPath]
    is kept only when it differs from the default encoding of [Path]. *)
Definition setPath (u : URL) (p : string) : result URL :=
  match unescape p encodePath with
  | Err e => Err e
  | Ok path =>
      if String.eqb p (escape path encodePath) then Ok (with_Path u path "")
      else Ok (with_Path u path p)
  end.

Definition setFragment (u : URL) (f : string) : result URL :=
  match unescape f encodeFragment with
  | Err e => Err e
  | Ok frag =>
      if String.eqb f (escape frag encodeFragment) then Ok (with_Fragment u frag "")
      else Ok (with_Fragment u frag f)
  end.

(** Whether [s] is a valid encoded path or fragment. *)
Definition validEncoded (s : string) (mode : encoding) : bool :=
  gostrings.forall_bytes
    (fun c => byte_in c "!$&'()*+,;=:@[]%" || negb (shouldEscape c mode)) s.

Definition EscapedPath (u : URL) : string :=
  if negb (String.eqb (RawPath u) "")
     && validEncoded (RawPath u) encodePath
     && (match unescape (RawPath u) encodePath with
         | Ok p => String.eqb p (Path u)
         | Err _ => false
         end)
  then RawPath u
  else if String.eqb (Path u) "*" then "*"
  else escape (Path u) encodePath.

Definition EscapedFragment (u : URL) : string :=
  if negb (String.eqb (RawFragment u) "")
     && validEncoded (RawFragment u) encodeFragment
     && (match unescape (RawFragment u) encodeFragment with
         | Ok f => String.eqb f (Fragment u)
         | Err _ => false
         end)
  then RawFragment u
  else escape (Fragment u) encodeFragment.

(** [u.String()], for a URL without user information. *)
Definition String_ (u : URL) : string :=
  let scheme := if String.eqb (Scheme u) "" then "" else Scheme u ++ ":" in
  let rest :=
    if negb (String.eqb (Opaque u) "") then Opaque u
    else
      let authority :=
        if negb (String.eqb (Scheme u) "") || negb (String.eqb (Host u) "") then
          if OmitHost u && String.eqb (Host u) "" then ""
          else
            (if negb (String.eqb (Host u) "") || negb (String.eqb (Path u) "")
             then "//" else "")
            ++ (if negb (String.eqb (Host u) "") then escape (Host u) encodeHost
                else "")
        else "" in
      let p := EscapedPath u in
      let slash :=
        if negb (String.eqb p "") && negb (gostrings.HasPrefix p "/")
           && negb (String.eqb (Host u) "")
        then "/" else "" in
      let dot :=
        if String.eqb (scheme ++ authority ++ slash) ""
           && gostrings.ContainsByte ":" (fst (fst (gostrings.Cut "/" p)))
        then "./" else "" in
      authority ++ slash ++ dot ++ p in
  let query :=
    if ForceQuery u || negb (String.eqb (RawQuery u) "")
    then "?" ++ RawQuery u else "" in
  let fragment :=
    if negb (String.eqb (Fragment u) "") then "#" ++ EscapedFragment u else "" in
  scheme ++ rest ++ query ++ fragment.

(** [getScheme]: the scheme before the first colon, when the text before
    it is a scheme name, and the rest. *)
Fixpoint getScheme_from (first : bool) (s : string) : result (option (string * string)) :=
  match s with
  | EmptyString => Ok None
  | String c r =>
      if is_lower c || is_upper c then
        match getScheme_from false r with
        | Ok (Some (sch, rest)) => Ok (Some (String c sch, rest))
        | other => other
        end
      else if is_digit c || byte_in c "+-." then
        if first then Ok None
        else match getScheme_from false r with
             | Ok (Some (sch, rest)) => Ok (Some (String c sch, rest))
             | other => other
             end
      else if Ascii.eqb c ":" then
        if first then Err (errorString "missing protocol scheme")
        else Ok (Some (EmptyString, r))
      else Ok None
  end.

Definition getScheme (rawURL : string) : result (string * string) :=
  match getScheme_from true rawURL with
  | Err e => Err e
  | Ok None => Ok ("", rawURL)
  | Ok (Some p) => Ok p
  end.

Definition stringContainsCTLByte (s : string) : bool :=
  negb (gostrings.forall_bytes
          (fun b => negb ((N_of_ascii b <? 32)%N || (N_of_ascii b =? 127)%N)) s).

Definition validOptionalPort (port : string) : bool :=
  match port with
  | EmptyString => true
  | String c r => Ascii.eqb c ":" && gostrings.forall_bytes is_digit r
  end.

(** The text from the last [c] of [s] on, when [c] occurs. *)
Fixpoint fromLast (c : ascii) (s : string) : option string :=
  match s with
  | EmptyString => None
  | String d r =>
      match fromLast c r with
      | Some t => Some t
      | None => if Ascii.eqb c d then Some s else None
      end
  end.

(** [parseHost], for a host that is not a bracketed IP literal. *)
Definition parseHost (host : string) : result string :=
  if gostrings.HasPrefix host "["
  then Err (unmodelled "net/url: bracketed IP literal")
  else
    match fromLast ":" host with
    | Some colonPort =>
        if validOptionalPort colonPort then unescape host encodeHost
        else Err (invalidPortError colonPort)
    | None => unescape host encodeHost
    end.

(** [parseAuthority], for an authority without user information. *)
Definition parseAuthority (authority : string) : result string :=
  if gostrings.ContainsByte "@" authority
  then Err (unmodelled "net/url: user information")
  else parseHost authority.

(** The unexported [parse(rawURL, viaRequest=false)]. *)
Definition parse (rawURL : string) : result URL :=
  if stringContainsCTLByte rawURL
  then Err (errorString "net/url: invalid control character in URL")
  else if String.eqb rawURL "*"
  then Ok (with_Path zeroURL "*" "")
  else
    match getScheme rawURL with
    | Err e => Err e
    | Ok (scheme, rest) =>
        let scheme := gostrings.ToLower scheme in
        let '(rest, rawQuery, forceQuery) :=
          if gostrings.HasSuffixByte rest "?"
             && Nat.eqb (gostrings.CountByte "?" rest) 1
          then (gostrings.dropLast rest, "", true)
          else let '(before, after, _) := gostrings.Cut "?" rest in
               (before, after, false) in
        let u := mkURL scheme "" "" "" "" false forceQuery rawQuery "" "" in
        if negb (gostrings.HasPrefix rest "/") && negb (String.eqb scheme "")
        then Ok (mkURL scheme rest "" "" "" false forceQuery rawQuery "" "")
        else if negb (gostrings.HasPrefix rest "/")
                && gostrings.ContainsByte ":" (fst (fst (gostrings.Cut "/" rest)))
        then Err (errorString "first path segment in URL cannot contain colon")
        else if (negb (String.eqb scheme "") || negb (gostrings.HasPrefix rest "///"))
                && gostrings.HasPrefix rest "//"
        then
          let '(authority, after, found) := gostrings.Cut "/" (gostrings.drop 2 rest) in
          let rest' := if found then String "/" after else "" in
          match parseAuthority authority with
          | Err e => Err e
          | Ok host => setPath (with_Host u host) rest'
          end
        else if negb (String.eqb scheme "") && gostrings.HasPrefix rest "/"
        then setPath (mkURL scheme "" "" "" "" true forceQuery rawQuery "" "") rest
        else setPath u rest
    end.

(** [url.Parse].  The model covers URLs without user information and
    without a bracketed IP literal as host; on the others it answers with
    an error that says so. *)
Definition Parse (rawURL : string) : result URL :=
  let '(u, frag, _) := gostrings.Cut "#" rawURL in
  match parse u with
  | Err e => Err (url_Error "parse" u e)
  | Ok url =>
      if String.eqb frag "" then Ok url
      else match setFragment url frag with
           | Err e => Err (url_Error "parse" rawURL e)
           | Ok url' => Ok url'
           end
  end.

(** [u.JoinPath(elem...)]: the elements are joined to the escaped path of
    [u] and the result is cleaned; the path of a relative [u] is joined as
    a rooted one and the leading slash taken off again; a trailing slash of
    the last element is kept.  An error of [setPath] is dropped, as in the
    library, and leaves the path of [u] in place. *)
Definition JoinPath (u : URL) (elem : list string) : URL :=
  let rooted := gostrings.HasPrefix (EscapedPath u) "/" in
  let elem0 := if rooted then EscapedPath u else "/" ++ EscapedPath u in
  let joined := path.Join (elem0 :: elem) in
  let p := if rooted then joined else gostrings.drop 1 joined in
  let p :=
    if gostrings.HasSuffixByte (List.last elem elem0) "/"
       && negb (gostrings.HasSuffixByte p "/")
    then p ++ "/" else p in
  match setPath u p with
  | Ok u' => u'
  | Err _ => u
  end.

(** [url.Values]: a map from keys to lists of values. *)
Abbreviation Values := (gmap string (list string)).

Definition Add (v : Values) (key value : string) : Values :=
  <[key := (default [] (v !! key) ++ [value])%list]> v.

Definition string_le (a b : string) : Prop := String.leb a b = true.
#[global] Instance string_le_dec a b : Decision (string_le a b).
Proof. unfold string_le. apply _. Defined.

(** The keys of [v] in byte-wise lexical order ([slices.Sort]). *)
Definition sorted_keys (v : Values) : list string :=
  merge_sort string_le (map fst (map_to_list v)).

(** The [key=value] pairs written by [Encode], in order. *)
Definition encode_pairs (v : Values) : list string :=
  flat_map (fun k =>
              map (fun x => QueryEscape k ++ "=" ++ QueryEscape x)
                  (default [] (v !! k)))
           (sorted_keys v).

(** [v.Encode()]: the pairs sorted by key, joined by [&]. *)
Definition Encode (v : Values) : string :=
  gostrings.Join (encode_pairs v) "&".

(** The loop of [parseQuery], the reading of a query string by its
    receiver: the pairs of the segments between [&], in order, with the
    error reported.  A segment with a semicolon or a bad escape is
    skipped, an empty one is ignored; a semicolon error replaces an
    earlier escape error. *)
Fixpoint parseQuery_segments (segs : list string)
    : list (string * string) * option error :=
  match segs with
  | [] => ([], None)
  | seg :: rest =>
      let '(pairs, err) := parseQuery_segments rest in
      let bad_escape (e : error) :=
        (pairs, if existsb (gostrings.ContainsByte ";") rest then err else Some e) in
      if gostrings.ContainsByte ";" seg
      then (pairs, Some (errorString "invalid semicolon separator in query"))
      else if String.eqb seg "" then (pairs, err)
      else
        let '(k, v, _) := gostrings.Cut "=" seg in
        match QueryUnescape k with
        | Err e => bad_escape e
        | Ok key =>
            match QueryUnescape v with
            | Err e => bad_escape e
            | Ok value => ((key, value) :: pairs, err)
            end
        end
  end.

Definition parseQuery (query : string) : list (string * string) * option error :=
  parseQuery_segments (gostrings.Split "&" query).

End url.

(** ** Package io: response bodies *)

Module io.

(** An [io.ReadCloser] over a network connection.  [chunks] is the data
    that the successive calls of [Read] will deliver, [fault] the error
    returned once the chunks are exhausted ([None] stands for [io.EOF]),
    and [closed] records a call of [Close]. *)
Record Body : Type := mkBody {
  chunks : list string;
  fault : option error;
  closed : bool
}.

Definition Close (b : Body) : Body := mkBody (chunks b) (fault b) true.

(** No byte is left to read. *)
Definition drained (b : Body) : bool :=
  String.eqb (String.concat "" (chunks b)) "".

(** [io.ReadAll]: reads until [io.EOF] or an error and returns the data
    read with the error, [io.EOF] being reported as [nil]. *)
Definition ReadAll (b : Body) : string * option error * Body :=
  if closed b
  then ("", Some (errorString "http: read on closed response body"), b)
  else (String.concat "" (chunks b), fault b, mkBody [] (fault b) false).

End io.

(** ** Packages net/textproto and net/http *)

Module http.

Definition MethodGet : string := "GET".
Definition MethodPatch : string := "PATCH".
Definition MethodDelete : string := "DELETE".
Definition StatusOK : Z := 200.

(** The bytes of an HTTP token (RFC 7230). *)
Definition validHeaderFieldByte (c : ascii) : bool :=
  is_lower c || is_upper c || is_digit c || byte_in c "!#$%&'*+-.^_`|~".

(** First letter and letters after a dash in upper case, the others in
    lower case. *)
Fixpoint canonical_case (upper : bool) (s : string) : string :=
  match s with
  | EmptyString => EmptyString
  | String c r =>
      let c' := if upper then to_upper c else to_lower c in
      String c' (canonical_case (Ascii.eqb c' "-") r)
  end.

(** [textproto.CanonicalMIMEHeaderKey]: a key with a byte that is not a
    token byte is returned unchanged. *)
Definition CanonicalMIMEHeaderKey (s : string) : string :=
  if gostrings.forall_bytes validHeaderFieldByte s
  then canonical_case true s else s.

(** [http.Header]. *)
Abbreviation Header := (gmap string (list string)).

Definition Set_ (h : Header) (key value : string) : Header :=
  <[CanonicalMIMEHeaderKey key := [value]]> h.

(** [h.Get(key)]: the first value of [key], or the empty string. *)
Definition Get (h : Header) (key : string) : string :=
  match h !! CanonicalMIMEHeaderKey key with
  | Some (v :: _) => v
  | _ => ""
  end.

(** An opaque [context.Context] value of the caller. *)
Inductive Context : Type := ctx_of (id : nat).

(** [http.Request]; [Body] is the text the request body reader delivers
    ([None] for a [nil] reader). *)
Record Request : Type := mkRequest {
  ctx : Context;
  Method : string;
  URL : url.URL;
  Header_ : Header;
  ReqBody : option string;
  ReqHost : string
}.

Definition with_Header (r : Request) (h : Header) : Request :=
  mkRequest (ctx r) (Method r) (URL r) h (ReqBody r) (ReqHost r).

Definition with_URL (r : Request) (u : url.URL) : Request :=
  mkRequest (ctx r) (Method r) u (Header_ r) (ReqBody r) (ReqHost r).

Definition validMethod (method : string) : bool :=
  negb (String.eqb method "") && gostrings.forall_bytes validHeaderFieldByte method.

(** [removeEmptyPort]: a host ending in a colon loses it. *)
Definition removeEmptyPort (host : string) : string :=
  match url.fromLast ":" host with
  | Some t =>
      if negb (gostrings.ContainsByte "]" t) && gostrings.HasSuffixByte host ":"
      then gostrings.dropLast host else host
  | None => host
  end.

(** [http.NewRequestWithContext]; a [nil] context is [None]. *)
Definition NewRequestWithContext (c : option Context) (method : string)
    (rawURL : string) (body : option string) : result Request :=
  let method := if String.eqb method "" then "GET" else method in
  if negb (validMethod method) then Err (invalidMethodError method)
  else
    match c with
    | None => Err (errorString "net/http: nil Context")
    | Some c =>
        match url.Parse rawURL with
        | Err e => Err e
        | Ok u =>
            let host := removeEmptyPort (url.Host u) in
            Ok (mkRequest c method (url.with_Host u host) ∅ body host)
        end
    end.

(** [http.Response], reduced to the fields the client reads. *)
Record Response : Type := mkResponse {
  StatusCode : Z;
  Body : io.Body
}.

(** An [*http.Client]: what [Do] answers to a request, transport and
    server included. *)
Definition Client : Type := Request -> result Response.

Definition Do (c : Client) (req : Request) : result Response := c req.

End http.

(** ** Package encoding/json *)

Module json.

(** A JSON text as the decoder sees it: members keep their order and
    their duplicates, a number keeps its literal. *)
#[warnings="-register-all"]
Inductive value : Type :=
| Null
| Bool (b : bool)
| Number (lit : string)
| Str (s : string)
| Array (elems : list value)
| Object (members : list (string * value)).

(** The outcome of scanning a prefix of the input: a result with the
    rest of the input, the end of the input inside a value, or an
    invalid byte. *)
Inductive scan (A : Type) : Type :=
| Scanned (a : A) (rest : string)
| Truncated
| Invalid.
Arguments Scanned {A} a rest.
Arguments Truncated {A}.
Arguments Invalid {A}.

Definition maxNestingDepth : N := 10000.

Definition isSpace (c : ascii) : bool :=
  (N_of_ascii c =? 32)%N || (N_of_ascii c =? 9)%N
  || (N_of_ascii c =? 13)%N || (N_of_ascii c =? 10)%N.

Fixpoint skip_space (s : string) : string :=
  match s with
  | String c r => if isSpace c then skip_space r else s
  | EmptyString => s
  end.

(** The rest of a literal ([rue], [alse], [ull]) must follow. *)
Fixpoint expect (lit s : string) : scan unit :=
  match lit with
  | EmptyString => Scanned tt s
  | String c lit' =>
      match s with
      | EmptyString => Truncated
      | String d s' => if Ascii.eqb c d then expect lit' s' else Invalid
      end
  end.

Fixpoint span_digits (s : string) : string * string :=
  match s with
  | String c r =>
      if is_digit c then let '(ds, rest) := span_digits r in (String c ds, rest)
      else (EmptyString, s)
  | EmptyString => (EmptyString, EmptyString)
  end.

(** One or more digits. *)
Definition scan_digits1 (s : string) : scan string :=
  match s with
  | EmptyString => Truncated
  | String c _ =>
      if is_digit c then let '(ds, rest) := span_digits s in Scanned ds rest
      else Invalid
  end.

Definition scan_int (s : string) : scan string :=
  match s with
  | EmptyString => Truncated
  | String c r =>
      if Ascii.eqb c "0" then Scanned "0" r
      else if is_digit c then let '(ds, rest) := span_digits s in Scanned ds rest
      else Invalid
  end.

Definition scan_frac (s : string) : scan string :=
  match s with
  | String c r =>
      if Ascii.eqb c "." then
        match scan_digits1 r with
        | Scanned ds rest => Scanned (String c ds) rest
        | Truncated => Truncated
        | Invalid => Invalid
        end
      else Scanned "" s
  | EmptyString => Scanned "" s
  end.

Definition scan_exp (s : string) : scan string :=
  match s with
  | String c r =>
      if byte_in c "eE" then
        let '(sign, r') :=
          match r with
          | String d r'' =>
              if byte_in d "+-" then (String d EmptyString, r'') else ("", r)
          | EmptyString => ("", r)
          end in
        match scan_digits1 r' with
        | Scanned ds rest => Scanned (String c (sign ++ ds)) rest
        | Truncated => Truncated
        | Invalid => Invalid
        end
      else Scanned "" s
  | EmptyString => Scanned "" s
  end.

(** A number literal: optional minus, integer part, optional fraction,
    optional exponent. *)
Definition scan_number (s : string) : scan string :=
  let '(sign, s1) :=
    match s with
    | String c r => if Ascii.eqb c "-" then ("-", r) else ("", s)
    | EmptyString => ("", s)
    end in
  match scan_int s1 with
  | Scanned i s2 =>
      match scan_frac s2 with
      | Scanned f s3 =>
          match scan_exp s3 with
          | Scanned e s4 => Scanned (sign ++ i ++ f ++ e) s4
          | Truncated => Truncated
          | Invalid => Invalid
          end
      | Truncated => Truncated
      | Invalid => Invalid
      end
  | Truncated => Truncated
  | Invalid => Invalid
  end.

(** The text of a string literal up to its closing quote, escapes still
    in place.  Control bytes and unknown escapes are invalid. *)
Fixpoint scan_string (s : string) : scan string :=
  match s with
  | EmptyString => Truncated
  | String c r =>
      if Ascii.eqb c dquote then Scanned "" r
      else if (N_of_ascii c <? 32)%N then Invalid
      else if Ascii.eqb c "\" then
        match r with
        | EmptyString => Truncated
        | String e r' =>
            if byte_in e "\/bfnrt" || Ascii.eqb e dquote then
              match scan_string r' with
              | Scanned raw rest => Scanned (String c (String e raw)) rest
              | other => other
              end
            else if Ascii.eqb e "u" then
              match r' with
              | String h1 (String h2 (String h3 (String h4 r''))) =>
                  if url.ishex h1 && url.ishex h2 && url.ishex h3 && url.ishex h4
                  then match scan_string r'' with
                       | Scanned raw rest =>
                           Scanned (String c (String e (String h1 (String h2
                                      (String h3 (String h4 raw)))))) rest
                       | other => other
                       end
                  else Invalid
              | String h1 (String h2 (String h3 EmptyString)) =>
                  if url.ishex h1 && url.ishex h2 && url.ishex h3
                  then Truncated else Invalid
              | String h1 (String h2 EmptyString) =>
                  if url.ishex h1 && url.ishex h2 then Truncated else Invalid
              | String h1 EmptyString =>
                  if url.ishex h1 then Truncated else Invalid
              | EmptyString => Truncated
              end
            else Invalid
        end
      else match scan_string r with
           | Scanned raw rest => Scanned (String c raw) rest
           | other => other
           end
  end.

(** [utf8.EncodeRune]; surrogates and values above U+10FFFF are encoded
    as U+FFFD. *)
Definition EncodeRune (r : N) : string :=
  let byte (n : N) := ascii_of_N n in
  let cont (n : N) := ascii_of_N (128 + N.land n 63)%N in
  if (r <? 128)%N then String (byte r) ""
  else if (r <? 2048)%N then
    String (byte (192 + N.shiftr r 6)%N) (String (cont r) "")
  else if ((55296 <=? r) && (r <? 57344))%N || (1114111 <? r)%N then
    String (byte 239%N) (String (byte 191%N) (String (byte 189%N) ""))
  else if (r <? 65536)%N then
    String (byte (224 + N.shiftr r 12)%N)
      (String (cont (N.shiftr r 6)) (String (cont r) ""))
  else
    String (byte (240 + N.shiftr r 18)%N)
      (String (cont (N.shiftr r 12))
         (String (cont (N.shiftr r 6)) (String (cont r) ""))).

Definition hex4 (a b c d : ascii) : N :=
  (((url.unhex a * 16 + url.unhex b) * 16 + url.unhex c) * 16 + url.unhex d)%N.

Definition is_high_surrogate (r : N) : bool := ((55296 <=? r) && (r <? 56320))%N.
Definition is_low_surrogate (r : N) : bool := ((56320 <=? r) && (r <? 57344))%N.

(** [unquote]: the text denoted by a scanned string literal.  A pair of
    surrogate escapes denotes one rune, a lone surrogate U+FFFD. *)
Fixpoint unquote (raw : string) : string :=
  match raw with
  | EmptyString => EmptyString
  | String "\" (String "u" (String a (String b (String c (String d r))))) =>
      let rr := hex4 a b c d in
      if is_high_surrogate rr then
        match r with
        | String "\" (String "u" (String a' (String b' (String c' (String d' r'))))) =>
            let rr1 := hex4 a' b' c' d' in
            if is_low_surrogate rr1 then
              EncodeRune ((rr - 55296) * 1024 + (rr1 - 56320) + 65536)%N ++ unquote r'
            else EncodeRune 65533%N ++ unquote r
        | _ => EncodeRune 65533%N ++ unquote r
        end
      else EncodeRune rr ++ unquote r
  | String "\" (String e r) =>
      let c :=
        if Ascii.eqb e "b" then ascii_of_N 8%N
        else if Ascii.eqb e "f" then ascii_of_N 12%N
        else if Ascii.eqb e "n" then ascii_of_N 10%N
        else if Ascii.eqb e "r" then ascii_of_N 13%N
        else if Ascii.eqb e "t" then ascii_of_N 9%N
        else e in
      String c (unquote r)
  | String c r => String c (unquote r)
  end.

(** One JSON value at the front of [s], after optional white space.
    [fuel] bounds the recursion; a nested value costs two units and at
    least one byte, so twice the length of the input is enough.  [depth]
    counts the open arrays and objects. *)
Fixpoint parse_value (fuel : nat) (depth : N) (s : string) : scan value :=
  match fuel with
  | O => Invalid
  | S fuel =>
      match skip_space s with
      | EmptyString => Truncated
      | String c r =>
          if Ascii.eqb c "{" then
            if (maxNestingDepth <? N.succ depth)%N then Invalid
            else
              match skip_space r with
              | EmptyString => Truncated
              | String c' r' =>
                  if Ascii.eqb c' "}" then Scanned (Object []) r'
                  else parse_members fuel (N.succ depth) (String c' r') []
              end
          else if Ascii.eqb c "[" then
            if (maxNestingDepth <? N.succ depth)%N then Invalid
            else
              match skip_space r with
              | EmptyString => Truncated
              | String c' r' =>
                  if Ascii.eqb c' "]" then Scanned (Array []) r'
                  else parse_elements fuel (N.succ depth) (String c' r') []
              end
          else if Ascii.eqb c dquote then
            match scan_string r with
            | Scanned raw rest => Scanned (Str (unquote raw)) rest
            | Truncated => Truncated
            | Invalid => Invalid
            end
          else if Ascii.eqb c "-" || is_digit c then
            match scan_number (String c r) with
            | Scanned lit rest => Scanned (Number lit) rest
            | Truncated => Truncated
            | Invalid => Invalid
            end
          else if Ascii.eqb c "t" then
            match expect "rue" r with
            | Scanned _ rest => Scanned (Bool true) rest
            | Truncated => Truncated
            | Invalid => Invalid
            end
          else if Ascii.eqb c "f" then
            match expect "alse" r with
            | Scanned _ rest => Scanned (Bool false) rest
            | Truncated => Truncated
            | Invalid => Invalid
            end
          else if Ascii.eqb c "n" then
            match expect "ull" r with
            | Scanned _ rest => Scanned Null rest
            | Truncated => Truncated
            | Invalid => Invalid
            end
          else Invalid
      end
  end

(** The elements of an array from an element on, [acc] holding the
    earlier ones in reverse. *)
with parse_elements (fuel : nat) (depth : N) (s : string) (acc : list value)
    : scan value :=
  match fuel with
  | O => Invalid
  | S fuel =>
      match parse_value fuel depth s with
      | Scanned v rest =>
          match skip_space rest with
          | EmptyString => Truncated
          | String c r =>
              if Ascii.eqb c "," then parse_elements fuel depth r (v :: acc)
              else if Ascii.eqb c "]" then Scanned (Array (rev (v :: acc))) r
              else Invalid
          end
      | Truncated => Truncated
      | Invalid => Invalid
      end
  end

(** The members of an object from a key on. *)
with parse_members (fuel : nat) (depth : N) (s : string)
    (acc : list (string * value))
    : scan value :=
  match fuel with
  | O => Invalid
  | S fuel =>
      match skip_space s with
      | EmptyString => Truncated
      | String c r =>
          if Ascii.eqb c dquote then
            match scan_string r with
            | Scanned raw rest =>
                match skip_space rest with
                | EmptyString => Truncated
                | String colon r' =>
                    if negb (Ascii.eqb colon ":") then Invalid
                    else
                      match parse_value fuel depth r' with
                      | Scanned v rest' =>
                          match skip_space rest' with
                          | EmptyString => Truncated
                          | String d r'' =>
                              if Ascii.eqb d "," then
                                parse_members fuel depth r'' ((unquote raw, v) :: acc)
                              else if Ascii.eqb d "}" then
                                Scanned (Object (rev ((unquote raw, v) :: acc))) r''
                              else Invalid
                          end
                      | Truncated => Truncated
                      | Invalid => Invalid
                      end
                end
            | Truncated => Truncated
            | Invalid => Invalid
            end
          else Invalid
      end
  end.

(** The first value of [s]. *)
Definition scan_value (s : string) : scan value :=
  parse_value (2 * String.length s + 2) 0%N s.

(** *** Storing a value into a Go variable

    A decoding function takes the variable's current contents and
    returns the new contents with the first type mismatch, if any:
    decoding goes on after a mismatch and leaves the mismatched part as
    it was. *)

Definition first_error (a b : option error) : option error :=
  match a with Some _ => a | None => b end.

(** The word an [UnmarshalTypeError] uses for a value of the wrong
    kind. *)
Definition kind_name (v : value) : string :=
  match v with
  | Null => "null"
  | Bool _ => "bool"
  | Number _ => "number"
  | Str _ => "string"
  | Array _ => "array"
  | Object _ => "object"
  end.

Definition decode_string (cur : string) (v : value) : string * option error :=
  match v with
  | Null => (cur, None)
  | Str s => (s, None)
  | _ => (cur, Some (json_UnmarshalTypeError (kind_name v)))
  end.

Definition decode_bool (cur : bool) (v : value) : bool * option error :=
  match v with
  | Null => (cur, None)
  | Bool b => (b, None)
  | _ => (cur, Some (json_UnmarshalTypeError (kind_name v)))
  end.

Fixpoint digits_value (acc : Z) (s : string) : Z :=
  match s with
  | EmptyString => acc
  | String c r => digits_value (acc * 10 + Z.of_N (N_of_ascii c - 48)) r
  end.

(** [strconv.ParseInt(lit, 10, 64)] on a number literal: a sign and
    digits within the range of [int64]. *)
Definition ParseInt (lit : string) : option Z :=
  let '(neg, ds) :=
    match lit with
    | String c r => if Ascii.eqb c "-" then (true, r) else (false, lit)
    | EmptyString => (false, lit)
    end in
  if negb (String.eqb ds "") && gostrings.forall_bytes is_digit ds then
    let n := if neg then (- digits_value 0 ds)%Z else digits_value 0 ds in
    if ((- 2 ^ 63 <=? n) && (n <? 2 ^ 63))%Z then Some n else None
  else None.

Definition decode_int (cur : Z) (v : value) : Z * option error :=
  match v with
  | Null => (cur, None)
  | Number lit =>
      match ParseInt lit with
      | Some n => (n, None)
      | None => (cur, Some (json_UnmarshalTypeError ("number " ++ lit)))
      end
  | _ => (cur, Some (json_UnmarshalTypeError (kind_name v)))
  end.

(** Field names are matched without regard to case.  Two runes outside
    ASCII fold to ASCII letters: U+017F to [S] and U+212A to [K]. *)
Fixpoint foldName (s : string) : string :=
  match s with
  | EmptyString => EmptyString
  | String c r =>
      if (N_of_ascii c =? 197)%N then
        match r with
        | String d r' =>
            if (N_of_ascii d =? 191)%N then String "S" (foldName r')
            else String c (foldName r)
        | EmptyString => String c EmptyString
        end
      else if (N_of_ascii c =? 226)%N then
        match r with
        | String d (String e r') =>
            if ((N_of_ascii d =? 132) && (N_of_ascii e =? 170))%N
            then String "K" (foldName r')
            else String c (foldName r)
        | _ => String c (foldName r)
        end
      else String (to_upper c) (foldName r)
  end.

Definition key_is (key name : string) : bool :=
  String.eqb (foldName key) (foldName name).

Section Containers.
Context {T : Type}.
(** The zero value of the element type and its decoding function. *)
Variable zero : T.
Variable decode_elem : T -> value -> T * option error.

(** The elements of a JSON array are stored at their index, into the
    element already there if there is one. *)
Fixpoint decode_elems (cur : list T) (vs : list value) : list T * option error :=
  match vs with
  | [] => ([], None)
  | v :: vs' =>
      let '(x, e1) := decode_elem (hd zero cur) v in
      let '(xs, e2) := decode_elems (tl cur) vs' in
      (x :: xs, first_error e1 e2)
  end.

(** Storing into a slice: [null] empties it, an array replaces its
    contents. *)
Definition decode_slice (cur : list T) (v : value) : list T * option error :=
  match v with
  | Null => ([], None)
  | Array vs => decode_elems cur vs
  | _ => (cur, Some (json_UnmarshalTypeError (kind_name v)))
  end.

(** Storing into a struct: each member of an object is stored into the
    field it names, in the order of the text. *)
Variable decode_member : T -> string -> value -> T * option error.

Fixpoint decode_members (cur : T) (ms : list (string * value)) : T * option error :=
  match ms with
  | [] => (cur, None)
  | (k, v) :: ms' =>
      let '(x, e1) := decode_member cur k v in
      let '(y, e2) := decode_members x ms' in
      (y, first_error e1 e2)
  end.

Definition decode_struct (cur : T) (v : value) : T * option error :=
  match v with
  | Null => (cur, None)
  | Object ms => decode_members cur ms
  | _ => (cur, Some (json_UnmarshalTypeError (kind_name v)))
  end.
End Containers.

(** [json.Unmarshal(data, &target)]: the whole of [data] must be one
    JSON value between optional white space; otherwise the target is
    left untouched. *)
Definition Unmarshal {T : Type} (decode : T -> value -> T * option error)
    (data : string) (target : T) : T * option error :=
  match scan_value data with
  | Scanned v rest =>
      if String.eqb (skip_space rest) "" then decode target v
      else (target, Some json_SyntaxError)
  | Truncated => (target, Some json_SyntaxError)
  | Invalid => (target, Some json_SyntaxError)
  end.

(** What the decoder finds in the data buffered so far. *)
Inductive found : Type :=
| Complete (v : value)     (* a whole value *)
| Pending (v : value)      (* a number, string or literal that ends the buffer *)
| Incomplete
| Malformed.

Definition is_container (v : value) : bool :=
  match v with Array _ | Object _ => true | _ => false end.

Definition look (buf : string) : found :=
  match scan_value buf with
  | Scanned v rest =>
      if is_container v || negb (String.eqb rest "") then Complete v
      else Pending v
  | Truncated => Incomplete
  | Invalid => Malformed
  end.

(** [readValue]: the decoder reads from the body until the buffered
    data holds a whole value or a malformed one.  The result is what it
    found and the chunks it has not read. *)
Fixpoint readValue (buf : string) (chunks : list string) : found * string * list string :=
  match look buf with
  | Complete v => (Complete v, buf, chunks)
  | Malformed => (Malformed, buf, chunks)
  | other =>
      match chunks with
      | [] => (other, buf, [])
      | c :: rest => readValue (buf ++ c) rest
      end
  end.

(** [json.NewDecoder(body).Decode(&target)]: the next value of the
    stream is stored into the target. *)
Definition Decode {T : Type} (decode : T -> value -> T * option error)
    (body : io.Body) (target : T) : T * option error * io.Body :=
  if io.closed body
  then (target, Some (errorString "http: read on closed response body"), body)
  else
    let '(f, buf, unread) := readValue "" (io.chunks body) in
    let body' := io.mkBody unread (io.fault body) false in
    match f with
    | Complete v => (decode target v, body')
    | Malformed => (target, Some json_SyntaxError, body')
    | Pending v =>
        match io.fault body with
        | None => (decode target v, body')
        | Some e => (target, Some e, body')
        end
    | Incomplete =>
        match io.fault body with
        | None =>
            if String.eqb (skip_space buf) ""
            then (target, Some io_EOF, body')
            else (target, Some io_ErrUnexpectedEOF, body')
        | Some e => (target, Some e, body')
        end
    end.

(** *** The decoding functions of the client's types *)

Definition decode_Error_member (e : Error) (k : string) (v : value)
    : Error * option error :=
  if key_is k "code" then
    let '(x, err) := decode_string (Code e) v in (mkError x (Message e), err)
  else if key_is k "message" then
    let '(x, err) := decode_string (Message e) v in (mkError (Code e) x, err)
  else (e, None).

Definition decode_Error : Error -> value -> Error * option error :=
  decode_struct decode_Error_member.

Definition decode_Errors : list Error -> value -> list Error * option error :=
  decode_slice (mkError "" "") decode_Error.

Definition decode_Zone_member (z : Zone) (k : string) (v : value)
    : Zone * option error :=
  if key_is k "id" then
    let '(x, err) := decode_string (ZoneID z) v in
    (mkZone x (ZoneName z) (ZoneType z), err)
  else if key_is k "name" then
    let '(x, err) := decode_string (ZoneName z) v in
    (mkZone (ZoneID z) x (ZoneType z), err)
  else if key_is k "type" then
    let '(x, err) := decode_string (ZoneType z) v in
    (mkZone (ZoneID z) (ZoneName z) x, err)
  else (z, None).

Definition decode_Zone : Zone -> value -> Zone * option error :=
  decode_struct decode_Zone_member.

Definition decode_Zones : list Zone -> value -> list Zone * option error :=
  decode_slice (mkZone "" "" "") decode_Zone.

Definition zeroRecord : Record_ := mkRecord "" "" "" 0 "" 0 false.

Definition decode_Record_member (r : Record_) (k : string) (v : value)
    : Record_ * option error :=
  if key_is k "id" then
    let '(x, err) := decode_string (ID r) v in
    (mkRecord x (Name r) (Content r) (TTL r) (Type_ r) (Priority r) (Disabled r), err)
  else if key_is k "name" then
    let '(x, err) := decode_string (Name r) v in
    (mkRecord (ID r) x (Content r) (TTL r) (Type_ r) (Priority r) (Disabled r), err)
  else if key_is k "content" then
    let '(x, err) := decode_string (Content r) v in
    (mkRecord (ID r) (Name r) x (TTL r) (Type_ r) (Priority r) (Disabled r), err)
  else if key_is k "ttl" then
    let '(x, err) := decode_int (TTL r) v in
    (mkRecord (ID r) (Name r) (Content r) x (Type_ r) (Priority r) (Disabled r), err)
  else if key_is k "type" then
    let '(x, err) := decode_string (Type_ r) v in
    (mkRecord (ID r) (Name r) (Content r) (TTL r) x (Priority r) (Disabled r), err)
  else if key_is k "prio" then
    let '(x, err) := decode_int (Priority r) v in
    (mkRecord (ID r) (Name r) (Content r) (TTL r) (Type_ r) x (Disabled r), err)
  else if key_is k "disabled" then
    let '(x, err) := decode_bool (Disabled r) v in
    (mkRecord (ID r) (Name r) (Content r) (TTL r) (Type_ r) (Priority r) x, err)
  else (r, None).

Definition decode_Record : Record_ -> value -> Record_ * option error :=
  decode_struct decode_Record_member.

Definition decode_Records : list Record_ -> value -> list Record_ * option error :=
  decode_slice zeroRecord decode_Record.

Definition zeroCustomerZone : CustomerZone := mkCustomerZone "" "" [] "".

Definition decode_CustomerZone_member (z : CustomerZone) (k : string) (v : value)
    : CustomerZone * option error :=
  if key_is k "id" then
    let '(x, err) := decode_string (CZID z) v in
    (mkCustomerZone x (CZName z) (Records z) (CZType z), err)
  else if key_is k "name" then
    let '(x, err) := decode_string (CZName z) v in
    (mkCustomerZone (CZID z) x (Records z) (CZType z), err)
  else if key_is k "records" then
    let '(x, err) := decode_Records (Records z) v in
    (mkCustomerZone (CZID z) (CZName z) x (CZType z), err)
  else if key_is k "type" then
    let '(x, err) := decode_string (CZType z) v in
    (mkCustomerZone (CZID z) (CZName z) (Records z) x, err)
  else (z, None).

Definition decode_CustomerZone
    : CustomerZone -> value -> CustomerZone * option error :=
  decode_struct decode_CustomerZone_member.

End json.

(** ** Package github.com/google/go-querystring/query *)

Module querystring.

(** What reflection shows of an exported string field: the name and the
    [omitempty] option of its [url] tag, and its value. *)
Record field : Type := mkField {
  tag_name : string;
  omitempty : bool;
  field_value : string
}.

(** [reflectValue]: a field with [omitempty] and the empty string is
    skipped, every other field is added under its name. *)
Fixpoint reflectValue (values : url.Values) (fields : list field) : url.Values :=
  match fields with
  | [] => values
  | f :: rest =>
      if omitempty f && String.eqb (field_value f) ""
      then reflectValue values rest
      else reflectValue (url.Add values (tag_name f) (field_value f)) rest
  end.

(** The fields of a [RecordsFilter], in the order of the declaration. *)
Definition fields_of (f : RecordsFilter) : list field :=
  [ mkField "suffix" true (Suffix f);
    mkField "recordName" true (RecordName f);
    mkField "recordType" true (RecordType f) ].

(** [query.Values(filter)] for a pointer to a [RecordsFilter]: a struct
    of string fields never fails to encode. *)
Definition Values (f : RecordsFilter) : result url.Values :=
  Ok (reflectValue ∅ (fields_of f)).

End querystring.

(** ** client.go *)

(** [defaultBaseURL] represents the API endpoint to call. *)
Definition defaultBaseURL : string := "https://api.hosting.ionos.com/dns".

(** [Client]: the IONOS API client. *)
Record Client : Type := mkClient {
  HTTPClient : http.Client;
  BaseURL : url.URL;
  apiKey : string
}.

(** What a call of one of the four operations leaves behind: the value it
    returned, the requests it handed to [HTTPClient.Do], and the final state
    of the response body when a response was received. *)
Record Call (A : Type) : Type := mkCall {
  returned : A;
  requests : list http.Request;
  body : option io.Body
}.
Arguments mkCall {A} returned requests body.
Arguments returned {A} c.
Arguments requests {A} c.
Arguments body {A} c.

(** The end of a call that received a response: it returns [fst outcome],
    and the deferred [resp.Body.Close()] closes the body in the state
    [snd outcome] the call left it in. *)
Definition deferred_Close {A : Type} (req : http.Request) (outcome : A * io.Body)
    : Call A :=
  mkCall (fst outcome) [req] (Some (io.Close (snd outcome))).

(** [return zero, err] for an [error] value that may be [nil]. *)
Definition with_error {A : Type} (zero : A) (err : option error) : result A :=
  match err with
  | Some e => Err e
  | None => Ok zero
  end.

(** [readError] reads the whole body, ignoring a read error, and builds a
    [*ClientError] from the status code and either the vendor's error list
    or, when the body is not such a list, the raw text. *)
Definition readError (body : io.Body) (statusCode : Z) : option error * io.Body :=
  let '(bodyBytes, _, body') := io.ReadAll body in
  let cErr := mkClientError [] statusCode "" in
  let '(errs, err) := json.Unmarshal json.decode_Errors bodyBytes (errors cErr) in
  let cErr := mkClientError errs (StatusCode cErr) (message cErr) in
  match err with
  | Some _ =>
      (Some (ClientErrorPtr (mkClientError (errors cErr) (StatusCode cErr) bodyBytes)),
       body')
  | None => (Some (ClientErrorPtr cErr), body')
  end.

Definition makeRequest (c : Client) (ctx : option http.Context) (method : string)
    (endpoint : url.URL) (body : option string) : result http.Request :=
  match http.NewRequestWithContext ctx method (url.String_ endpoint) body with
  | Err err => Err (wrapError "failed to create request: " err)
  | Ok req =>
      let h := http.Set_ (http.Header_ req) "Accept" "application/json" in
      let h := http.Set_ h "Content-Type" "application/json" in
      let h := http.Set_ h "X-API-Key" (apiKey c) in
      Ok (http.with_Header req h)
  end.

Section Operations.

(** [http.DefaultClient], the process-wide client. *)
Variable http_DefaultClient : http.Client.

(** [json.Marshal] on a slice of records: the text of the request body. *)
Variable json_Marshal : list Record_ -> result string.

(** [NewClient] creates a new Client. *)
Definition NewClient (apiKey : string) : result Client :=
  match url.Parse defaultBaseURL with
  | Err err => Err err
  | Ok baseURL => Ok (mkClient http_DefaultClient baseURL apiKey)
  end.

(** [ListZones] gets all zones. *)
Definition ListZones (c : Client) (ctx : option http.Context)
    : Call (result (list Zone)) :=
  let endpoint := url.JoinPath (BaseURL c) ["v1"; "zones"] in
  match makeRequest c ctx http.MethodGet endpoint None with
  | Err err => mkCall (Err (wrapError "failed to create request: " err)) [] None
  | Ok req =>
      match http.Do (HTTPClient c) req with
      | Err err => mkCall (Err (wrapError "failed to call API: " err)) [req] None
      | Ok resp =>
          deferred_Close req
            (if negb (http.StatusCode resp =? http.StatusOK)%Z then
              let '(err, b) := readError (http.Body resp) (http.StatusCode resp) in
              (with_error [] err, b)
            else
              let '(zones, err, b) :=
                json.Decode json.decode_Zones (http.Body resp) [] in
              match err with
              | Some err => (Err (wrapError "failed to parse response: " err), b)
              | None => (Ok zones, b)
              end)
      end
  end.

(** [ReplaceRecords] replaces some records of a zone. *)
Definition ReplaceRecords (c : Client) (ctx : option http.Context)
    (zoneID : string) (records : list Record_) : Call (option error) :=
  let endpoint := url.JoinPath (BaseURL c) ["v1"; "zones"; zoneID] in
  match json_Marshal records with
  | Err err => mkCall (Some (wrapError "failed to marshal request body: " err)) [] None
  | Ok body =>
      match makeRequest c ctx http.MethodPatch endpoint (Some body) with
      | Err err => mkCall (Some (wrapError "failed to create request: " err)) [] None
      | Ok req =>
          match http.Do (HTTPClient c) req with
          | Err err => mkCall (Some (wrapError "failed to call API: " err)) [req] None
          | Ok resp =>
              deferred_Close req
                (if negb (http.StatusCode resp =? http.StatusOK)%Z then
                  readError (http.Body resp) (http.StatusCode resp)
                else (None, http.Body resp))
          end
      end
  end.

(** The assignment [req.URL.RawQuery = v.Encode()] of [GetRecords], made
    when the filter is not [nil]. *)
Definition apply_filter (req : http.Request) (filter : option RecordsFilter)
    : result http.Request :=
  match filter with
  | Some f =>
      match querystring.Values f with
      | Err errQ => Err errQ
      | Ok v =>
          Ok (http.with_URL req (url.with_RawQuery (http.URL req) (url.Encode v)))
      end
  | None => Ok req
  end.

(** [GetRecords] gets the records of a zone. *)
Definition GetRecords (c : Client) (ctx : option http.Context)
    (zoneID : string) (filter : option RecordsFilter)
    : Call (result (list Record_)) :=
  let endpoint := url.JoinPath (BaseURL c) ["v1"; "zones"; zoneID] in
  match makeRequest c ctx http.MethodGet endpoint None with
  | Err err => mkCall (Err (wrapError "failed to create request: " err)) [] None
  | Ok req =>
      match apply_filter req filter with
      | Err errQ => mkCall (Err errQ) [] None
      | Ok req =>
          match http.Do (HTTPClient c) req with
          | Err err => mkCall (Err (wrapError "failed to call API: " err)) [req] None
          | Ok resp =>
              deferred_Close req
                (if negb (http.StatusCode resp =? http.StatusOK)%Z then
                  let '(err, b) :=
                    readError (http.Body resp) (http.StatusCode resp) in
                  (with_error [] err, b)
                else
                  let '(zone, err, b) :=
                    json.Decode json.decode_CustomerZone (http.Body resp)
                                json.zeroCustomerZone in
                  match err with
                  | Some err => (Err (wrapError "failed to parse response: " err), b)
                  | None => (Ok (Records zone), b)
                  end)
          end
      end
  end.

(** [RemoveRecord] removes a record. *)
Definition RemoveRecord (c : Client) (ctx : option http.Context)
    (zoneID recordID : string) : Call (option error) :=
  let endpoint := url.JoinPath (BaseURL c) ["v1"; "zones"; zoneID; "records"; recordID] in
  match makeRequest c ctx http.MethodDelete endpoint None with
  | Err err => mkCall (Some (wrapError "failed to create request: " err)) [] None
  | Ok req =>
      match http.Do (HTTPClient c) req with
      | Err err => mkCall (Some (wrapError "failed to call API: " err)) [req] None
      | Ok resp =>
          deferred_Close req
            (if negb (http.StatusCode resp =? http.StatusOK)%Z then
              readError (http.Body resp) (http.StatusCode resp)
            else (None, http.Body resp))
      end
  end.

End Operations.

(** ** Vocabulary of the properties *)

(** The error a call returned, [None] when it succeeded. *)
Definition failure {A : Type} (r : result A) : option error :=
  match r with
  | Ok _ => None
  | Err e => Some e
  end.

(** The response a call received: the answer of the client's transport to
    the one request the call handed to it. *)
Definition answer {A : Type} (c : Client) (call : Call A) : option http.Response :=
  match requests call with
  | [req] =>
      match http.Do (HTTPClient c) req with
      | Ok resp => Some resp
      | Err _ => None
      end
  | _ => None
  end.

(** The status-code gate of an operation that returned [err]: it
    succeeded only on a response with status 200, and on a response with
    any other status [err] is the error built by [readError]. *)
Definition status_gate {A : Type} (c : Client) (call : Call A) (err : option error)
    : Prop :=
  (err = None ->
   exists resp, answer c call = Some resp /\ http.StatusCode resp = http.StatusOK)
  /\ (forall resp,
        answer c call = Some resp ->
        http.StatusCode resp <> http.StatusOK ->
        err = fst (readError (http.Body resp) (http.StatusCode resp))
        /\ err <> None).

(** The three headers of section 6 with the API key [k]: each is present
    with exactly one value. *)
Definition carries_headers (k : string) (req : http.Request) : Prop :=
  http.Header_ req !! http.CanonicalMIMEHeaderKey "Accept" = Some ["application/json"]
  /\ http.Header_ req !! http.CanonicalMIMEHeaderKey "Content-Type" = Some ["application/json"]
  /\ http.Header_ req !! http.CanonicalMIMEHeaderKey "X-API-Key" = Some [k]
  /\ http.Get (http.Header_ req) "Accept" = "application/json"
  /\ http.Get (http.Header_ req) "Content-Type" = "application/json"
  /\ http.Get (http.Header_ req) "X-API-Key" = k.

(** The base URL of a client made by [NewClient]. *)
Definition parsedBaseURL : url.URL :=
  url.mkURL "https" "" "api.hosting.ionos.com" "/dns" "" false false "" "" "".

(** The non-empty fields of a filter under their parameter names, in the
    order of the names. *)
Definition filter_params (f : RecordsFilter) : list (string * string) :=
  filter (fun p => negb (String.eqb (snd p) ""))
         [("recordName", RecordName f); ("recordType", RecordType f);
          ("suffix", Suffix f)].

(** The separators of a query string. *)
Definition is_separator (c : ascii) : bool := byte_in c "&=;".

(** A parameter as [Encode] writes it. *)
Definition parameter (p : string * string) : string :=
  url.QueryEscape (fst p) ++ "=" ++ url.QueryEscape (snd p).

(** The parameters of a [url.Values] in the order [Encode] writes them:
    by key, and for one key in the order of its values. *)
Definition query_pairs (v : url.Values) : list (string * string) :=
  flat_map (fun k => map (pair k) (default [] (v !! k))) (url.sorted_keys v).

(** The query of a URL: the text after the question mark, and whether a
    question mark is printed before an empty text. *)
Definition query_of (u : url.URL) : string * bool := (url.RawQuery u, url.ForceQuery u).



(** The text of the base URL before its path. *)
Definition origin : string := "https://api.hosting.ionos.com".




(** The sample body of section 8,
    [[{"id":"1","name":"www","type":"A","content":"1.2.3.4"}]]. *)
Definition quoted (s : string) : string :=
  String dquote s ++ String dquote "".

Definition sample_object : string :=
  "{" ++ quoted "id" ++ ":" ++ quoted "1" ++ ","
      ++ quoted "name" ++ ":" ++ quoted "www" ++ ","
      ++ quoted "type" ++ ":" ++ quoted "A" ++ ","
      ++ quoted "content" ++ ":" ++ quoted "1.2.3.4" ++ "}".

Definition sample_body : string := "[" ++ sample_object ++ "]".

(** The same records inside the envelope of the "get records" endpoint. *)
Definition sample_envelope : string :=
  "{" ++ quoted "records" ++ ":" ++ sample_body ++ "}".

Definition sample_zone : Zone := mkZone "1" "www" "A".

Definition sample_record : Record_ := mkRecord "1" "www" "1.2.3.4" 0 "A" 0 false.

(** A transport that answers every request with the same response. *)
Definition always (resp : http.Response) : http.Client := fun _ => Ok resp.

(** A response whose body arrives in one piece. *)
Definition response_with (status : Z) (text : string) : http.Response :=
  http.mkResponse status (io.mkBody [text] None false).

(** A [json.Marshal] for the examples; the properties hold for any. *)
Definition no_body : list Record_ -> result string := fun _ => Ok "[]".

Definition background : option http.Context := Some (http.ctx_of 0).

(** A scan that succeeded left less of the input than it was given. *)
Definition shorter {A} (r : json.scan A) (s : string) : Prop :=
  match r with
  | json.Scanned _ rest => String.length rest < String.length s
  | _ => True
  end.

(** A scan that succeeded left no more of the input than it was given. *)
Definition not_longer {A} (r : json.scan A) (s : string) : Prop :=
  match r with
  | json.Scanned _ rest => String.length rest <= String.length s
  | _ => True
  end.

(** With fuel [f] the scanner gives the result it gives with one unit
    more, and consumes input: for a value, for the elements of an array, for
    the members of an object. *)
Definition stable_value (f : nat) : Prop :=
  forall d s, 2 * String.length s + 1 <= f ->
    json.parse_value f d s = json.parse_value (S f) d s
    /\ shorter (json.parse_value f d s) s.

Definition stable_elements (f : nat) : Prop :=
  forall d s acc, 2 * String.length s + 2 <= f ->
    json.parse_elements f d s acc = json.parse_elements (S f) d s acc
    /\ shorter (json.parse_elements f d s acc) s.

Definition stable_members (f : nat) : Prop :=
  forall d s acc, 2 * String.length s + 2 <= f ->
    json.parse_members f d s acc = json.parse_members (S f) d s acc
    /\ shorter (json.parse_members f d s acc) s.

(** A client with the base URL of [NewClient], a given transport and the
    key [key]. *)
Definition client_of (transport : http.Client) : Client :=
  mkClient transport parsedBaseURL "key".

(** *** Calls and requests *)

(** The error every operation returns for a [nil] context. *)
Definition nil_context_error : error :=
  wrapError "failed to create request: "
    (wrapError "failed to create request: " (errorString "net/http: nil Context")).

(** What a call did with the transport: it sent nothing; or one request,
    which the transport failed; or one request, whose response body it
    holds closed. *)
Definition single_exchange {A : Type} (c : Client) (call : Call A) : Prop :=
  (requests call = [] /\ body call = None)
  \/ (exists req e, requests call = [req] /\ http.Do (HTTPClient c) req = Err e
                    /\ body call = None)
  \/ (exists req resp b, requests call = [req] /\ http.Do (HTTPClient c) req = Ok resp
                         /\ body call = Some b /\ io.closed b = true).

(** A transport that fails on every request. *)
Definition failing (e : error) : http.Client := fun _ => Err e.

(** A byte that ends neither the text of a URL nor its path: no control
    byte, no [#], no [?]. *)
Definition wire_safe (c : ascii) : bool :=
  negb ((N_of_ascii c <? 32)%N || (N_of_ascii c =? 127)%N)
  && negb (Ascii.eqb c "#") && negb (Ascii.eqb c "?").

(** The part of the text of a URL after the origin: empty, or a rooted
    path. *)
Definition rooted_or_empty (x : string) : bool :=
  String.eqb x "" || gostrings.HasPrefix x "/".

(** The call handed to the transport one request with the method [method]
    whose URL is, its query string apart, the base URL with the path of the
    endpoint of [elems]. *)
Definition built_for {A : Type} (call : Call A) (method : string) (elems : list string)
    : Prop :=
  exists req rp,
    requests call = [req]
    /\ http.Method req = method
    /\ url.with_RawQuery (http.URL req) ""
       = url.with_Path parsedBaseURL (url.Path (url.JoinPath parsedBaseURL elems)) rp
    /\ http.ReqHost req = "api.hosting.ionos.com".

(** A request without its [X-Api-Key] header. *)
Definition without_key (req : http.Request) : http.Request :=
  http.with_Header req
    (delete (http.CanonicalMIMEHeaderKey "X-API-Key") (http.Header_ req)).

(** The client [c] under the API key [k]. *)
Definition rekeyed (c : Client) (k : string) : Client :=
  mkClient (HTTPClient c) (BaseURL c) k.

(** What [Get] returns for [name] on a request of a client with key [k]. *)
Definition expected_header (k name : string) : string :=
  let n := gostrings.ToLower name in
  if String.eqb n "accept" || String.eqb n "content-type" then "application/json"
  else if String.eqb n "x-api-key" then k
  else "".

(** *** Bodies *)

(** The JSON values a Go slice is decoded from. *)
Definition is_list (v : json.value) : bool :=
  match v with json.Array _ | json.Null => true | _ => false end.

(** What the scan [ra] of a text tells about the scan [r] of the text
    followed by [b]: an invalid byte stays invalid, and a result that did
    not stop at the end of the text, or that a delimiter closes
    ([closed_ v = true]), stays the result, with [b] added to what is
    left. *)
Definition extends {A : Type} (closed_ : A -> bool) (ra r : json.scan A) (b : string)
    : Prop :=
  match ra with
  | json.Truncated => True
  | json.Invalid => r = json.Invalid
  | json.Scanned v rest =>
      rest <> "" \/ closed_ v = true -> r = json.Scanned v (rest ++ b)
  end.

Definition always_closed {A : Type} (_ : A) : bool := true.

Definition never_closed {A : Type} (_ : A) : bool := false.

(** A number is the only value that more input can prolong. *)
Definition delimited (v : json.value) : bool :=
  match v with json.Number _ => false | _ => true end.

(** ** Claims as the specification words them

    Three sentences of the specification do not hold of the code as they
    are worded.  They are stated here as worded, to be refuted below. *)

(** Section 8 on the response body: on a response with status 200 the call
    returns no error and leaves the body read to its end and closed. *)
Definition drains_body {A : Type} (c : Client) (call : Call A) (err : option error)
    : Prop :=
  forall resp,
    answer c call = Some resp ->
    http.StatusCode resp = http.StatusOK ->
    err = None
    /\ exists b, body call = Some b /\ io.drained b = true /\ io.closed b = true.

Definition drained_on_every_path : Prop :=
  forall jm c ctx zoneID recordID records,
    drains_body c (RemoveRecord c ctx zoneID recordID)
                (returned (RemoveRecord c ctx zoneID recordID))
    /\ drains_body c (ReplaceRecords jm c ctx zoneID records)
                   (returned (ReplaceRecords jm c ctx zoneID records)).

(** Section 8 on the sample body: on a 200 response with that body both
    [ListZones] and [GetRecords] return one element with the values of the
    sample. *)
Definition sample_decodes_in_both : Prop :=
  forall c ctx zoneID filter,
    (answer c (ListZones c ctx) = Some (response_with 200 sample_body) ->
     returned (ListZones c ctx) = Ok [sample_zone])
    /\ (answer c (GetRecords c ctx zoneID filter)
        = Some (response_with 200 sample_body) ->
        returned (GetRecords c ctx zoneID filter) = Ok [sample_record]).


(** * Properties *)

(** ** Construction *)

Lemma Parse_defaultBaseURL : url.Parse defaultBaseURL = Ok parsedBaseURL.
Proof. vm_compute. reflexivity. Qed.

Lemma String_parsedBaseURL : url.String_ parsedBaseURL = defaultBaseURL.
Proof. vm_compute. reflexivity. Qed.

Lemma NewClient_Ok (dc : http.Client) (k : string) :
  NewClient dc k = Ok (mkClient dc parsedBaseURL k).
Proof. unfold NewClient. rewrite Parse_defaultBaseURL. reflexivity. Qed.

(** C8.  For every API key and every default transport, [NewClient] returns
    a client and no error: the endpoint constant parses, so the error branch
    is not taken.  The client holds the key, and its base URL is the parsed
    constant, which prints back as the constant. *)
Theorem NewClient_total (dc : http.Client) (k : string) :
  url.Parse defaultBaseURL = Ok parsedBaseURL
  /\ NewClient dc k = Ok (mkClient dc parsedBaseURL k)
  /\ url.String_ parsedBaseURL = defaultBaseURL.
Proof.
  split; [exact Parse_defaultBaseURL|].
  split; [exact (NewClient_Ok dc k) | exact String_parsedBaseURL].
Qed.

(** ** The JSON scanner never runs out of fuel *)

Lemma skip_space_length s : String.length (json.skip_space s) <= String.length s.
Proof.
  induction s as [|c s IH]; [reflexivity|].
  cbn [json.skip_space]. destruct (json.isSpace c); cbn [String.length]; lia.
Qed.

Lemma span_digits_length s : String.length (snd (json.span_digits s)) <= String.length s.
Proof.
  induction s as [|c s IH]; [reflexivity|].
  cbn [json.span_digits]. destruct (is_digit c); [|reflexivity].
  destruct (json.span_digits s) as [ds rest]. cbn [snd String.length] in *. lia.
Qed.

Lemma scan_digits1_shorter s : shorter (json.scan_digits1 s) s.
Proof.
  destruct s as [|c s]; [exact I|]. unfold json.scan_digits1.
  destruct (is_digit c) eqn:E; [|exact I].
  cbn [json.span_digits]. rewrite E.
  pose proof (span_digits_length s). destruct (json.span_digits s) as [ds rest].
  cbn [shorter snd String.length] in *. lia.
Qed.

Lemma scan_int_shorter s : shorter (json.scan_int s) s.
Proof.
  destruct s as [|c s]; [exact I|]. unfold json.scan_int.
  destruct (Ascii.eqb c "0"); [cbn; lia|].
  destruct (is_digit c) eqn:E; [|exact I].
  cbn [json.span_digits]. rewrite E.
  pose proof (span_digits_length s). destruct (json.span_digits s) as [ds rest].
  cbn [shorter snd String.length] in *. lia.
Qed.

Lemma scan_frac_not_longer s : not_longer (json.scan_frac s) s.
Proof.
  unfold json.scan_frac.
  destruct s as [|c s]; [cbn; lia|].
  destruct (Ascii.eqb c "."); [|cbn; lia].
  pose proof (scan_digits1_shorter s).
  destruct (json.scan_digits1 s); cbn in *; try exact I. lia.
Qed.

Lemma scan_exp_not_longer s : not_longer (json.scan_exp s) s.
Proof.
  unfold json.scan_exp.
  destruct s as [|c s]; [cbn; lia|].
  destruct (byte_in c "eE"); [|cbn; lia].
  destruct s as [|d s].
  - cbn. exact I.
  - destruct (byte_in d "+-").
    + pose proof (scan_digits1_shorter s).
      destruct (json.scan_digits1 s); cbn in *; try exact I. lia.
    + pose proof (scan_digits1_shorter (String d s)).
      destruct (json.scan_digits1 (String d s)); cbn in *; try exact I. lia.
Qed.

Lemma scan_number_shorter s : shorter (json.scan_number s) s.
Proof.
  unfold json.scan_number.
  assert (H : forall sign s1, String.length s1 <= String.length s ->
    shorter (match json.scan_int s1 with
       | json.Scanned i s2 =>
           match json.scan_frac s2 with
           | json.Scanned f s3 =>
               match json.scan_exp s3 with
               | json.Scanned e s4 => json.Scanned (sign ++ i ++ f ++ e) s4
               | json.Truncated => json.Truncated
               | json.Invalid => json.Invalid
               end
           | json.Truncated => json.Truncated
           | json.Invalid => json.Invalid
           end
       | json.Truncated => json.Truncated
       | json.Invalid => json.Invalid
       end) s).
  { intros sign s1 Hs1. pose proof (scan_int_shorter s1) as H1.
    destruct (json.scan_int s1) as [i s2| |]; try exact I.
    pose proof (scan_frac_not_longer s2) as H2.
    destruct (json.scan_frac s2) as [f s3| |]; try exact I.
    pose proof (scan_exp_not_longer s3) as H3.
    destruct (json.scan_exp s3) as [e s4| |]; try exact I.
    cbn in *. lia. }
  destruct s as [|c s]; [apply H; reflexivity|].
  destruct (Ascii.eqb c "-"); apply H; cbn; lia.
Qed.

Lemma scan_string_shorter s : shorter (json.scan_string s) s.
Proof.
  remember (String.length s) as n eqn:Hn. revert s Hn.
  induction n as [n IH] using lt_wf_ind. intros s ->.
  destruct s as [|c s]; [exact I|]. cbn [json.scan_string].
  destruct (Ascii.eqb c dquote); [cbn; lia|].
  destruct (N_of_ascii c <? 32)%N; [exact I|].
  destruct (Ascii.eqb c "\").
  - destruct s as [|e s]; [exact I|].
    destruct (byte_in e "\/bfnrt" || Ascii.eqb e dquote).
    + pose proof (IH (String.length s) ltac:(cbn; lia) s eq_refl) as H.
      destruct (json.scan_string s); cbn in *; try exact I. lia.
    + destruct (Ascii.eqb e "u"); [|exact I].
      destruct s as [|h1 [|h2 [|h3 [|h4 s]]]];
        repeat match goal with |- context [if ?b then _ else _] => destruct b end;
        try exact I.
      pose proof (IH (String.length s) ltac:(cbn; lia) s eq_refl) as H.
      destruct (json.scan_string s); cbn in *; try exact I. lia.
  - pose proof (IH (String.length s) ltac:(cbn; lia) s eq_refl) as H.
    destruct (json.scan_string s); cbn in *; try exact I. lia.
Qed.

Lemma expect_not_longer lit s : not_longer (json.expect lit s) s.
Proof.
  revert s. induction lit as [|c lit IH]; intros s; [cbn; lia|].
  destruct s as [|d s]; [exact I|]. cbn [json.expect].
  destruct (Ascii.eqb c d); [|exact I].
  specialize (IH s). destruct (json.expect lit s); cbn in *; try exact I. lia.
Qed.

Lemma shorter_map {A B} (r : json.scan A) (g : A -> B) s :
  shorter r s ->
  shorter (match r with
           | json.Scanned a rest => json.Scanned (g a) rest
           | json.Truncated => json.Truncated
           | json.Invalid => json.Invalid
           end) s.
Proof. destruct r; auto. Qed.

Lemma shorter_skip {A} (r : json.scan A) s t :
  String.length t <= String.length s -> shorter r t -> shorter r s.
Proof. destruct r; cbn; auto. lia. Qed.

Lemma not_longer_shorter {A} (r : json.scan A) s c :
  not_longer r s -> shorter r (String c s).
Proof. destruct r; cbn; auto. lia. Qed.

(** Both sides of a stability equation, unfolded once. *)
Ltac unfold_once f :=
  match goal with
  | |- ?l = ?r /\ _ =>
      let R := fresh "R" in
      set (R := r);
      cbn [json.parse_value json.parse_elements json.parse_members];
      subst R;
      let g := fresh "g" in
      let Hg := fresh "Hg" in
      remember (S f) as g eqn:Hg;
      cbn [json.parse_value json.parse_elements json.parse_members];
      subst g
  end.

Lemma stable_value_step f :
  stable_elements f -> stable_members f -> stable_value (S f).
Proof.
  intros HE HM d s Hf.
  pose proof (skip_space_length s) as Hsk.
  unfold_once f.
  destruct (json.skip_space s) as [|c r] eqn:Es; [split; [reflexivity | exact I]|].
  cbn [String.length] in Hsk.
  destruct (Ascii.eqb c "{").
  { destruct (json.maxNestingDepth <? N.succ d)%N; [split; [reflexivity | exact I]|].
    pose proof (skip_space_length r) as Hr.
    destruct (json.skip_space r) as [|c' r'] eqn:Er; [split; [reflexivity | exact I]|].
    cbn [String.length] in Hr.
    destruct (Ascii.eqb c' "}"); [split; [reflexivity | cbn; lia]|].
    destruct (HM (N.succ d) (String c' r') []) as [<- Hs]; [cbn [String.length]; lia|].
    split; [reflexivity|].
    destruct (json.parse_members f (N.succ d) (String c' r') []);
      cbn [shorter String.length] in *; auto; lia. }
  destruct (Ascii.eqb c "[").
  { destruct (json.maxNestingDepth <? N.succ d)%N; [split; [reflexivity | exact I]|].
    pose proof (skip_space_length r) as Hr.
    destruct (json.skip_space r) as [|c' r'] eqn:Er; [split; [reflexivity | exact I]|].
    cbn [String.length] in Hr.
    destruct (Ascii.eqb c' "]"); [split; [reflexivity | cbn; lia]|].
    destruct (HE (N.succ d) (String c' r') []) as [<- Hs]; [cbn [String.length]; lia|].
    split; [reflexivity|].
    destruct (json.parse_elements f (N.succ d) (String c' r') []);
      cbn [shorter String.length] in *; auto; lia. }
  split; [reflexivity|].
  destruct (Ascii.eqb c dquote).
  { pose proof (scan_string_shorter r) as H.
    destruct (json.scan_string r); cbn [shorter] in *; auto. lia. }
  destruct (Ascii.eqb c "-" || is_digit c).
  { pose proof (scan_number_shorter (String c r)) as H.
    destruct (json.scan_number (String c r)); cbn [shorter String.length] in *; auto. lia. }
  destruct (Ascii.eqb c "t").
  { pose proof (expect_not_longer "rue" r) as H.
    destruct (json.expect "rue" r); cbn [shorter not_longer] in *; auto. lia. }
  destruct (Ascii.eqb c "f").
  { pose proof (expect_not_longer "alse" r) as H.
    destruct (json.expect "alse" r); cbn [shorter not_longer] in *; auto. lia. }
  destruct (Ascii.eqb c "n"); [|exact I].
  pose proof (expect_not_longer "ull" r) as H.
  destruct (json.expect "ull" r); cbn [shorter not_longer] in *; auto. lia.
Qed.

Lemma stable_elements_step f :
  stable_value f -> stable_elements f -> stable_elements (S f).
Proof.
  intros HV HE d s acc Hf.
  unfold_once f.
  destruct (HV d s) as [<- Hs]; [lia|].
  destruct (json.parse_value f d s) as [v rest| |]; try (split; [reflexivity | exact I]).
  cbn [shorter] in Hs.
  pose proof (skip_space_length rest) as Hsk.
  destruct (json.skip_space rest) as [|c r]; [split; [reflexivity | exact I]|].
  cbn [String.length] in Hsk.
  destruct (Ascii.eqb c ",").
  { destruct (HE d r (v :: acc)) as [<- Hr]; [lia|].
    split; [reflexivity|].
    destruct (json.parse_elements f d r (v :: acc)); cbn [shorter] in *; auto. lia. }
  destruct (Ascii.eqb c "]"); split; try reflexivity; cbn; auto. lia.
Qed.

Lemma stable_members_step f :
  stable_value f -> stable_members f -> stable_members (S f).
Proof.
  intros HV HM d s acc Hf.
  pose proof (skip_space_length s) as Hsk.
  unfold_once f.
  destruct (json.skip_space s) as [|c r]; [split; [reflexivity | exact I]|].
  cbn [String.length] in Hsk.
  destruct (Ascii.eqb c dquote); [|split; [reflexivity | exact I]].
  pose proof (scan_string_shorter r) as Hstr.
  destruct (json.scan_string r) as [raw rest| |]; try (split; [reflexivity | exact I]).
  cbn [shorter] in Hstr.
  pose proof (skip_space_length rest) as Hsk2.
  destruct (json.skip_space rest) as [|colon r']; [split; [reflexivity | exact I]|].
  cbn [String.length] in Hsk2.
  destruct (negb (Ascii.eqb colon ":")); [split; [reflexivity | exact I]|].
  destruct (HV d r') as [<- Hv]; [lia|].
  destruct (json.parse_value f d r') as [v rest'| |]; try (split; [reflexivity | exact I]).
  cbn [shorter] in Hv.
  pose proof (skip_space_length rest') as Hsk3.
  destruct (json.skip_space rest') as [|e r'']; [split; [reflexivity | exact I]|].
  cbn [String.length] in Hsk3.
  destruct (Ascii.eqb e ",").
  { destruct (HM d r'' ((json.unquote raw, v) :: acc)) as [<- Hr]; [lia|].
    split; [reflexivity|].
    destruct (json.parse_members f d r'' ((json.unquote raw, v) :: acc));
      cbn [shorter] in *; auto. lia. }
  destruct (Ascii.eqb e "}"); split; try reflexivity; cbn; auto. lia.
Qed.

Lemma stable_all f : stable_value f /\ stable_elements f /\ stable_members f.
Proof.
  induction f as [|f (HV & HE & HM)].
  - split; [intros d s H; lia|]. split; intros d s acc H; lia.
  - split; [apply stable_value_step; assumption|].
    split; [apply stable_elements_step | apply stable_members_step]; assumption.
Qed.

(** More fuel than [scan_value] gives changes nothing: the scanner never
    runs out of fuel. *)
Lemma scan_value_fuel (s : string) (extra : nat) :
  json.parse_value (2 * String.length s + 2 + extra) 0 s = json.scan_value s.
Proof.
  unfold json.scan_value. induction extra as [|n IH]; [f_equal; lia|].
  rewrite <- IH. replace (2 * String.length s + 2 + S n) with (S (2 * String.length s + 2 + n)) by lia.
  symmetry. apply stable_all. lia.
Qed.

(** ** The error-decoding path *)

Lemma ReadAll_open (b : io.Body) :
  io.closed b = false ->
  io.ReadAll b
  = (String.concat "" (io.chunks b), io.fault b, io.mkBody [] (io.fault b) false).
Proof. intros H. unfold io.ReadAll. rewrite H. reflexivity. Qed.

(** [readError] in terms of what [io.ReadAll] delivered. *)
Lemma readError_unfold (b b' : io.Body) (sc : Z) (data : string) (rerr : option error) :
  io.ReadAll b = (data, rerr, b') ->
  readError b sc
  = (Some (ClientErrorPtr
             (match json.Unmarshal json.decode_Errors data [] with
              | (errs, Some _) => mkClientError errs sc data
              | (errs, None) => mkClientError errs sc ""
              end)), b').
Proof.
  intros H. unfold readError. rewrite H. cbn [errors StatusCode message].
  destruct (json.Unmarshal json.decode_Errors data []) as [errs [e|]]; reflexivity.
Qed.



(** C10.  [readError] never returns [nil], whatever the body and the status
    code and whether or not reading the body failed: the read error is
    dropped.  When no byte could be read, the parse of the empty text fails
    and the error carries the status code, no vendor errors and the empty
    text. *)
Theorem readError_never_nil (b b' : io.Body) (sc : Z) (data : string)
    (rerr : option error) :
  io.ReadAll b = (data, rerr, b') ->
  exists cErr,
    fst (readError b sc) = Some (ClientErrorPtr cErr)
    /\ fst (readError b sc) <> None
    /\ StatusCode cErr = sc
    /\ (data = "" -> cErr = mkClientError [] sc "").
Proof.
  intros H. rewrite (readError_unfold _ _ sc _ _ H). cbn [fst].
  eexists. split; [reflexivity|]. split; [discriminate|]. split.
  - destruct (json.Unmarshal json.decode_Errors data []) as [errs [e|]]; reflexivity.
  - intros ->. vm_compute. reflexivity.
Qed.

Lemma readError_never_nil_witness :
  exists cErr,
    fst (readError (io.mkBody [] (Some io_ErrUnexpectedEOF) false) 502)
    = Some (ClientErrorPtr cErr)
    /\ fst (readError (io.mkBody [] (Some io_ErrUnexpectedEOF) false) 502) <> None
    /\ StatusCode cErr = 502%Z
    /\ ("" = "" -> cErr = mkClientError [] 502 "").
Proof.
  exact (readError_never_nil (io.mkBody [] (Some io_ErrUnexpectedEOF) false) _ 502
           "" _ eq_refl).
Defined.

(** ** The four operations after the response

    When the transport answered the request of a call, the call is the
    deferred close of what the source does with the response. *)

Ltac answered H :=
  unfold answer in H;
  repeat match type of H with
    | context [match ?x with Ok _ => _ | Err _ => _ end] =>
        let E := fresh "E" in
        destruct x eqn:E; cbn in H; try rewrite E in H; try discriminate H
    end;
  injection H as H; subst; eexists; reflexivity.

Lemma ListZones_answered (c : Client) ctx resp :
  answer c (ListZones c ctx) = Some resp ->
  exists req,
    ListZones c ctx
    = deferred_Close req
        (if negb (http.StatusCode resp =? http.StatusOK)%Z then
           let '(err, b) := readError (http.Body resp) (http.StatusCode resp) in
           (with_error [] err, b)
         else
           let '(zones, err, b) := json.Decode json.decode_Zones (http.Body resp) [] in
           match err with
           | Some err => (Err (wrapError "failed to parse response: " err), b)
           | None => (Ok zones, b)
           end).
Proof. intros H. unfold ListZones in *. answered H. Qed.

Lemma GetRecords_answered (c : Client) ctx zoneID filter resp :
  answer c (GetRecords c ctx zoneID filter) = Some resp ->
  exists req,
    GetRecords c ctx zoneID filter
    = deferred_Close req
        (if negb (http.StatusCode resp =? http.StatusOK)%Z then
           let '(err, b) := readError (http.Body resp) (http.StatusCode resp) in
           (with_error [] err, b)
         else
           let '(zone, err, b) :=
             json.Decode json.decode_CustomerZone (http.Body resp)
                         json.zeroCustomerZone in
           match err with
           | Some err => (Err (wrapError "failed to parse response: " err), b)
           | None => (Ok (Records zone), b)
           end).
Proof. intros H. unfold GetRecords in *. answered H. Qed.

Lemma ReplaceRecords_answered jm (c : Client) ctx zoneID records resp :
  answer c (ReplaceRecords jm c ctx zoneID records) = Some resp ->
  exists req,
    ReplaceRecords jm c ctx zoneID records
    = deferred_Close req
        (if negb (http.StatusCode resp =? http.StatusOK)%Z then
           readError (http.Body resp) (http.StatusCode resp)
         else (None, http.Body resp)).
Proof. intros H. unfold ReplaceRecords in *. answered H. Qed.

Lemma RemoveRecord_answered (c : Client) ctx zoneID recordID resp :
  answer c (RemoveRecord c ctx zoneID recordID) = Some resp ->
  exists req,
    RemoveRecord c ctx zoneID recordID
    = deferred_Close req
        (if negb (http.StatusCode resp =? http.StatusOK)%Z then
           readError (http.Body resp) (http.StatusCode resp)
         else (None, http.Body resp)).
Proof. intros H. unfold RemoveRecord in *. answered H. Qed.

(** ** The status-code gate *)

Lemma readError_some (b : io.Body) (sc : Z) :
  exists cErr b', readError b sc = (Some (ClientErrorPtr cErr), b').
Proof.
  destruct (io.ReadAll b) as [[data rerr] b'] eqn:E.
  rewrite (readError_unfold _ _ sc _ _ E). eauto.
Qed.

Lemma status_eqb_false (sc : Z) :
  sc <> http.StatusOK -> negb (sc =? http.StatusOK)%Z = true.
Proof. intros H. apply negb_true_iff, Z.eqb_neq, H. Qed.

(** The branch an operation takes on a status other than 200. *)
Ltac error_branch resp Hsc :=
  rewrite (status_eqb_false _ Hsc);
  destruct (readError_some (http.Body resp) (http.StatusCode resp)) as (cErr & b' & ->);
  cbn; split; [reflexivity | discriminate].

(** An operation that did not fail went through every step. *)
Ltac success_path H :=
  unfold answer;
  repeat match type of H with
    | context [match ?x with Ok _ => _ | Err _ => _ end] =>
        let E := fresh "E" in
        destruct x eqn:E; cbn in H; try discriminate H
    end;
  cbn;
  match goal with
  | E : http.Do _ _ = Ok ?resp |- _ =>
      rewrite E; exists resp; split; [reflexivity|];
      destruct (http.StatusCode resp =? http.StatusOK)%Z eqn:Hsc;
      [ apply Z.eqb_eq, Hsc
      | cbn in H;
        destruct (readError_some (http.Body resp) (http.StatusCode resp))
          as (cErr & b' & Hr);
        rewrite Hr in H; discriminate H ]
  end.

Lemma ListZones_gate (c : Client) ctx :
  status_gate c (ListZones c ctx) (failure (returned (ListZones c ctx))).
Proof.
  split.
  - intros H. unfold ListZones in *. success_path H.
  - intros resp Ha Hsc. destruct (ListZones_answered c ctx resp Ha) as [req ->].
    error_branch resp Hsc.
Qed.

Lemma GetRecords_gate (c : Client) ctx zoneID filter :
  status_gate c (GetRecords c ctx zoneID filter)
              (failure (returned (GetRecords c ctx zoneID filter))).
Proof.
  split.
  - intros H. unfold GetRecords in *. success_path H.
  - intros resp Ha Hsc.
    destruct (GetRecords_answered c ctx zoneID filter resp Ha) as [req ->].
    error_branch resp Hsc.
Qed.

Lemma ReplaceRecords_gate jm (c : Client) ctx zoneID records :
  status_gate c (ReplaceRecords jm c ctx zoneID records)
              (returned (ReplaceRecords jm c ctx zoneID records)).
Proof.
  split.
  - intros H. unfold ReplaceRecords in *. success_path H.
  - intros resp Ha Hsc.
    destruct (ReplaceRecords_answered jm c ctx zoneID records resp Ha) as [req ->].
    error_branch resp Hsc.
Qed.

Lemma RemoveRecord_gate (c : Client) ctx zoneID recordID :
  status_gate c (RemoveRecord c ctx zoneID recordID)
              (returned (RemoveRecord c ctx zoneID recordID)).
Proof.
  split.
  - intros H. unfold RemoveRecord in *. success_path H.
  - intros resp Ha Hsc.
    destruct (RemoveRecord_answered c ctx zoneID recordID resp Ha) as [req ->].
    error_branch resp Hsc.
Qed.

(** C3.  Each of the four operations succeeds only when the transport
    answered its request with status 200; on an answer with any other status
    it returns the error built by [readError] from the body and the status,
    which is never [nil]. *)
Theorem status_code_gate jm (c : Client) ctx zoneID recordID records filter :
  status_gate c (ListZones c ctx) (failure (returned (ListZones c ctx)))
  /\ status_gate c (ReplaceRecords jm c ctx zoneID records)
                 (returned (ReplaceRecords jm c ctx zoneID records))
  /\ status_gate c (GetRecords c ctx zoneID filter)
                 (failure (returned (GetRecords c ctx zoneID filter)))
  /\ status_gate c (RemoveRecord c ctx zoneID recordID)
                 (returned (RemoveRecord c ctx zoneID recordID)).
Proof.
  split; [apply ListZones_gate|].
  split; [apply ReplaceRecords_gate|].
  split; [apply GetRecords_gate | apply RemoveRecord_gate].
Qed.

Lemma status_code_gate_witness :
  returned (RemoveRecord (client_of (always (response_with 404 "gone"))) background "z" "r")
  = fst (readError (io.mkBody ["gone"] None false) 404)
  /\ returned (RemoveRecord (client_of (always (response_with 404 "gone"))) background
                            "z" "r") <> None.
Proof.
  refine (proj2 (proj2 (proj2 (proj2 (status_code_gate no_body
            (client_of (always (response_with 404 "gone"))) background "z" "r" [] None))))
            (response_with 404 "gone") eq_refl _).
  vm_compute. discriminate.
Defined.

(** ** A body that is not JSON *)

Lemma readError_not_JSON (b : io.Body) (sc : Z) :
  io.closed b = false ->
  String.concat "" (io.chunks b) = "upstream timeout" ->
  fst (readError b sc)
  = Some (ClientErrorPtr (mkClientError [] sc "upstream timeout")).
Proof.
  intros Hopen Hdata.
  rewrite (readError_unfold b _ sc _ _ (ReadAll_open b Hopen)).
  rewrite Hdata. vm_compute. reflexivity.
Qed.

(** C6.  The text [upstream timeout] is not JSON.  On a response with a
    status other than 200 whose body holds that text, however it is split
    into chunks, each of the four operations returns the error of
    [readError], which carries the status code and that text as its message,
    and no vendor errors. *)
Theorem upstream_timeout_fallback jm (c : Client) ctx zoneID recordID records filter
    (resp : http.Response) :
  http.StatusCode resp <> http.StatusOK ->
  io.closed (http.Body resp) = false ->
  String.concat "" (io.chunks (http.Body resp)) = "upstream timeout" ->
  let e := Some (ClientErrorPtr
                   (mkClientError [] (http.StatusCode resp) "upstream timeout")) in
  snd (json.Unmarshal json.decode_Errors "upstream timeout" []) = Some json_SyntaxError
  /\ fst (readError (http.Body resp) (http.StatusCode resp)) = e
  /\ (answer c (ListZones c ctx) = Some resp ->
      failure (returned (ListZones c ctx)) = e)
  /\ (answer c (ReplaceRecords jm c ctx zoneID records) = Some resp ->
      returned (ReplaceRecords jm c ctx zoneID records) = e)
  /\ (answer c (GetRecords c ctx zoneID filter) = Some resp ->
      failure (returned (GetRecords c ctx zoneID filter)) = e)
  /\ (answer c (RemoveRecord c ctx zoneID recordID) = Some resp ->
      returned (RemoveRecord c ctx zoneID recordID) = e).
Proof.
  intros Hsc Hopen Hdata e.
  pose proof (readError_not_JSON _ (http.StatusCode resp) Hopen Hdata) as Hr.
  split; [vm_compute; reflexivity|]. split; [exact Hr|].
  split; [|split; [|split]]; intros Ha; unfold e; rewrite <- Hr.
  - exact (proj1 (proj2 (ListZones_gate c ctx) resp Ha Hsc)).
  - exact (proj1 (proj2 (ReplaceRecords_gate jm c ctx zoneID records) resp Ha Hsc)).
  - exact (proj1 (proj2 (GetRecords_gate c ctx zoneID filter) resp Ha Hsc)).
  - exact (proj1 (proj2 (RemoveRecord_gate c ctx zoneID recordID) resp Ha Hsc)).
Qed.

Lemma upstream_timeout_fallback_witness :
  let resp := http.mkResponse 504 (io.mkBody ["upstream "; "timeout"] None false) in
  fst (readError (http.Body resp) 504)
  = Some (ClientErrorPtr (mkClientError [] 504 "upstream timeout"))
  /\ returned (RemoveRecord (client_of (always resp)) background "z" "r")
     = Some (ClientErrorPtr (mkClientError [] 504 "upstream timeout")).
Proof.
  intros resp.
  assert (Hsc : http.StatusCode resp <> http.StatusOK) by (vm_compute; discriminate).
  pose proof (upstream_timeout_fallback no_body (client_of (always resp)) background
                "z" "r" [] None resp Hsc eq_refl eq_refl) as H.
  split; [exact (proj1 (proj2 H)) | exact (proj2 (proj2 (proj2 (proj2 (proj2 H)))) eq_refl)].
Defined.

(** ** The response body *)

(** C9 as worded fails: on a 200 response [RemoveRecord] returns without
    reading the body, so a body that holds data is closed with the data
    unread. *)
Lemma drained_on_every_path_fails : ~ drained_on_every_path.
Proof.
  intros H.
  destruct (H no_body (client_of (always (response_with 200 "ok")))
              background "z" "r" []) as [Hremove _].
  destruct (Hremove (response_with 200 "ok") eq_refl eq_refl) as (_ & b & Hb & Hd & _).
  vm_compute in Hb. injection Hb as <-. vm_compute in Hd. discriminate Hd.
Qed.

Lemma readError_drains (b : io.Body) (sc : Z) :
  io.closed b = false ->
  io.drained (snd (readError b sc)) = true /\ io.closed (snd (readError b sc)) = false.
Proof.
  intros Hopen.
  rewrite (readError_unfold b _ sc _ _ (ReadAll_open b Hopen)). split; reflexivity.
Qed.

(** C9, amended.  When the transport answered, [RemoveRecord] and
    [ReplaceRecords] close the response body on every path.  On status 200
    they return no error and close the body as it was received, without
    reading it.  On any other status the body, if still open, is read to its
    end by [readError] and then closed. *)
Theorem body_closed_on_every_path jm (c : Client) ctx zoneID recordID records :
  (forall resp,
     answer c (RemoveRecord c ctx zoneID recordID) = Some resp ->
     (http.StatusCode resp = http.StatusOK ->
      returned (RemoveRecord c ctx zoneID recordID) = None
      /\ body (RemoveRecord c ctx zoneID recordID) = Some (io.Close (http.Body resp)))
     /\ (http.StatusCode resp <> http.StatusOK ->
         io.closed (http.Body resp) = false ->
         exists b, body (RemoveRecord c ctx zoneID recordID) = Some b
                   /\ io.drained b = true /\ io.closed b = true))
  /\ (forall resp,
        answer c (ReplaceRecords jm c ctx zoneID records) = Some resp ->
        (http.StatusCode resp = http.StatusOK ->
         returned (ReplaceRecords jm c ctx zoneID records) = None
         /\ body (ReplaceRecords jm c ctx zoneID records)
            = Some (io.Close (http.Body resp)))
        /\ (http.StatusCode resp <> http.StatusOK ->
            io.closed (http.Body resp) = false ->
            exists b, body (ReplaceRecords jm c ctx zoneID records) = Some b
                      /\ io.drained b = true /\ io.closed b = true)).
Proof.
  split; intros resp Ha;
    [ destruct (RemoveRecord_answered c ctx zoneID recordID resp Ha) as [req ->]
    | destruct (ReplaceRecords_answered jm c ctx zoneID records resp Ha) as [req ->] ];
    (split;
     [ intros Hsc; rewrite Hsc; cbn; split; reflexivity
     | intros Hsc Hopen; rewrite (status_eqb_false _ Hsc); cbn;
       destruct (readError_drains (http.Body resp) (http.StatusCode resp) Hopen)
         as [Hd Hc];
       eexists; split; [reflexivity|]; split; [exact Hd | reflexivity] ]).
Qed.

Lemma body_closed_on_every_path_witness :
  let c := client_of (always (response_with 200 "ok")) in
  let c' := client_of (always (response_with 503 "busy")) in
  (returned (RemoveRecord c background "z" "r") = None
   /\ body (RemoveRecord c background "z" "r")
      = Some (io.mkBody ["ok"] None true))
  /\ (exists b, body (ReplaceRecords no_body c' background "z" []) = Some b
                /\ io.drained b = true /\ io.closed b = true).
Proof.
  intros c c'. split.
  - exact (proj1 (proj1 (body_closed_on_every_path no_body c background "z" "r" [])
                    (response_with 200 "ok") eq_refl) eq_refl).
  - refine (proj2 (proj2 (body_closed_on_every_path no_body c' background "z" "r" [])
                     (response_with 503 "busy") eq_refl) _ eq_refl).
    vm_compute. discriminate.
Defined.

(** ** Decoding the sample body *)

(** C2 as worded fails: [GetRecords] decodes the body into a
    [CustomerZone], an object, and the sample body is an array. *)
Lemma sample_decodes_in_both_fails : ~ sample_decodes_in_both.
Proof.
  intros H.
  destruct (H (client_of (always (response_with 200 sample_body)))
              background "z" None) as [_ Hget].
  specialize (Hget eq_refl). vm_compute in Hget. discriminate Hget.
Qed.

(** C2, amended.  On a 200 response whose body is the sample array,
    [ListZones] returns one zone with the id, the name and the type of the
    sample; the key [content] names no field of a zone and is skipped.
    [GetRecords] fails on that body with a decoding error, because it
    decodes the envelope of a zone; on a 200 response whose body is the
    sample array under the key [records] of an object it returns one record
    with the id, name, type and content of the sample. *)
Theorem sample_body_decoded (c : Client) ctx zoneID filter (fault : option error) :
  (answer c (ListZones c ctx)
   = Some (http.mkResponse 200 (io.mkBody [sample_body] fault false)) ->
   returned (ListZones c ctx) = Ok [sample_zone])
  /\ (answer c (GetRecords c ctx zoneID filter)
      = Some (http.mkResponse 200 (io.mkBody [sample_body] fault false)) ->
      returned (GetRecords c ctx zoneID filter)
      = Err (wrapError "failed to parse response: " (json_UnmarshalTypeError "array")))
  /\ (answer c (GetRecords c ctx zoneID filter)
      = Some (http.mkResponse 200 (io.mkBody [sample_envelope] fault false)) ->
      returned (GetRecords c ctx zoneID filter) = Ok [sample_record]).
Proof.
  split; [|split]; intros Ha.
  - destruct (ListZones_answered c ctx _ Ha) as [req ->]. vm_compute. reflexivity.
  - destruct (GetRecords_answered c ctx zoneID filter _ Ha) as [req ->].
    vm_compute. reflexivity.
  - destruct (GetRecords_answered c ctx zoneID filter _ Ha) as [req ->].
    vm_compute. reflexivity.
Qed.

Lemma sample_body_decoded_witness :
  returned (ListZones (client_of (always (response_with 200 sample_body))) background)
  = Ok [sample_zone]
  /\ returned (GetRecords (client_of (always (response_with 200 sample_body)))
                          background "z" None)
     = Err (wrapError "failed to parse response: " (json_UnmarshalTypeError "array"))
  /\ returned (GetRecords (client_of (always (response_with 200 sample_envelope)))
                          background "z" None)
     = Ok [sample_record].
Proof.
  split; [|split].
  - exact (proj1 (sample_body_decoded
                    (client_of (always (response_with 200 sample_body)))
                    background "z" None None) eq_refl).
  - exact (proj1 (proj2 (sample_body_decoded
                    (client_of (always (response_with 200 sample_body)))
                    background "z" None None)) eq_refl).
  - exact (proj2 (proj2 (sample_body_decoded
                    (client_of (always (response_with 200 sample_envelope)))
                    background "z" None None)) eq_refl).
Defined.

(** ** Request headers *)

Lemma NewRequestWithContext_Header ctx method rawURL b req :
  http.NewRequestWithContext ctx method rawURL b = Ok req ->
  http.Header_ req = ∅.
Proof.
  unfold http.NewRequestWithContext. intros H.
  destruct (negb (http.validMethod _)); [discriminate H|].
  destruct ctx as [c|]; [|discriminate H].
  destruct (url.Parse rawURL) as [u|e]; [|discriminate H].
  injection H as <-. reflexivity.
Qed.

Lemma makeRequest_headers (c : Client) ctx method endpoint b req :
  makeRequest c ctx method endpoint b = Ok req ->
  carries_headers (apiKey c) req.
Proof.
  unfold makeRequest. intros H.
  destruct (http.NewRequestWithContext ctx method (url.String_ endpoint) b)
    as [req0|e] eqn:E; [|discriminate H].
  injection H as <-. rewrite (NewRequestWithContext_Header _ _ _ _ _ E).
  generalize (apiKey c). intros k. unfold carries_headers.
  repeat split; vm_compute; reflexivity.
Qed.

Lemma apply_filter_headers req filter req' :
  apply_filter req filter = Ok req' -> http.Header_ req' = http.Header_ req.
Proof.
  unfold apply_filter. destruct filter as [f|]; cbn; intros H;
    injection H as <-; reflexivity.
Qed.

Lemma carries_headers_ext k req req' :
  http.Header_ req' = http.Header_ req -> carries_headers k req -> carries_headers k req'.
Proof. unfold carries_headers. intros ->. auto. Qed.

(** The requests of an operation, when there are any, are the one request
    it built. *)
Ltac the_request H :=
  repeat match type of H with
    | context [match ?x with Ok _ => _ | Err _ => _ end] =>
        let E := fresh "E" in destruct x eqn:E; cbn in H
    end;
  try contradiction;
  try (destruct H as [H|H]; [subst | contradiction]).

Lemma ListZones_headers (c : Client) ctx req :
  In req (requests (ListZones c ctx)) -> carries_headers (apiKey c) req.
Proof.
  unfold ListZones. intros H. the_request H; eapply makeRequest_headers; eassumption.
Qed.

Lemma ReplaceRecords_headers jm (c : Client) ctx zoneID records req :
  In req (requests (ReplaceRecords jm c ctx zoneID records)) ->
  carries_headers (apiKey c) req.
Proof.
  unfold ReplaceRecords. intros H.
  the_request H; eapply makeRequest_headers; eassumption.
Qed.

Lemma GetRecords_headers (c : Client) ctx zoneID filter req :
  In req (requests (GetRecords c ctx zoneID filter)) ->
  carries_headers (apiKey c) req.
Proof.
  unfold GetRecords. intros H.
  the_request H;
    (eapply carries_headers_ext;
     [ eapply apply_filter_headers; eassumption
     | eapply makeRequest_headers; eassumption ]).
Qed.

Lemma RemoveRecord_headers (c : Client) ctx zoneID recordID req :
  In req (requests (RemoveRecord c ctx zoneID recordID)) ->
  carries_headers (apiKey c) req.
Proof.
  unfold RemoveRecord. intros H.
  the_request H; eapply makeRequest_headers; eassumption.
Qed.

(** C4.  For every API key [k], every request that one of the four
    operations of a client made by [NewClient] with [k] hands to the
    transport carries the header [X-API-Key] with the single value [k], and
    [Accept] and [Content-Type] with the single value [application/json]. *)
Theorem requests_carry_headers dc jm (k : string) (c : Client) ctx zoneID recordID
    records filter req :
  NewClient dc k = Ok c ->
  In req (requests (ListZones c ctx)
          ++ requests (ReplaceRecords jm c ctx zoneID records)
          ++ requests (GetRecords c ctx zoneID filter)
          ++ requests (RemoveRecord c ctx zoneID recordID))%list ->
  carries_headers k req.
Proof.
  intros Hc Hin.
  rewrite (NewClient_Ok dc k) in Hc. injection Hc as <-.
  change k with (apiKey (mkClient dc parsedBaseURL k)).
  repeat (apply in_app_or in Hin; destruct Hin as [Hin|Hin]).
  - eapply ListZones_headers; eassumption.
  - eapply ReplaceRecords_headers; eassumption.
  - eapply GetRecords_headers; eassumption.
  - eapply RemoveRecord_headers; eassumption.
Qed.

Lemma requests_carry_headers_witness :
  exists req,
    requests (RemoveRecord (mkClient (always (response_with 200 "")) parsedBaseURL "s3cr3t")
                           background "z" "r") = [req]
    /\ carries_headers "s3cr3t" req.
Proof.
  eexists. split; [vm_compute; reflexivity|].
  refine (requests_carry_headers (always (response_with 200 "")) no_body "s3cr3t"
            _ background "z" "r" [] None _ eq_refl _).
  vm_compute. do 3 right. left. reflexivity.
Defined.

(** ** Strings *)

Ltac all_bytes c := destruct c as [[] [] [] [] [] [] [] []].

Lemma ContainsByte_app c (a b : string) :
  gostrings.ContainsByte c (a ++ b)
  = gostrings.ContainsByte c a || gostrings.ContainsByte c b.
Proof.
  induction a as [|d a IH]; [reflexivity|].
  simpl. rewrite IH. apply orb_assoc.
Qed.

Lemma Cut_none sep (a : string) :
  gostrings.ContainsByte sep a = false -> gostrings.Cut sep a = (a, "", false).
Proof.
  induction a as [|d a IH]; [reflexivity|].
  simpl. rewrite (Ascii.eqb_sym d sep).
  destruct (Ascii.eqb sep d); [discriminate|].
  simpl. intros H. rewrite (IH H). reflexivity.
Qed.

Lemma Cut_app sep (a b : string) :
  gostrings.ContainsByte sep a = false ->
  gostrings.Cut sep (a ++ String sep b) = (a, b, true).
Proof.
  induction a as [|d a IH].
  - intros _. simpl. rewrite Ascii.eqb_refl. reflexivity.
  - simpl. rewrite (Ascii.eqb_sym d sep).
    destruct (Ascii.eqb sep d); [discriminate|].
    simpl. intros H. rewrite (IH H). reflexivity.
Qed.

Lemma Split_none sep (a : string) :
  gostrings.ContainsByte sep a = false -> gostrings.Split sep a = [a].
Proof.
  induction a as [|d a IH]; [reflexivity|].
  simpl. rewrite (Ascii.eqb_sym d sep).
  destruct (Ascii.eqb sep d); [discriminate|].
  simpl. intros H. rewrite (IH H). reflexivity.
Qed.

Lemma Split_app sep (a b : string) :
  gostrings.ContainsByte sep a = false ->
  gostrings.Split sep (a ++ String sep b) = a :: gostrings.Split sep b.
Proof.
  induction a as [|d a IH].
  - intros _. simpl. rewrite Ascii.eqb_refl. reflexivity.
  - simpl. rewrite (Ascii.eqb_sym d sep).
    destruct (Ascii.eqb sep d); [discriminate|].
    simpl. intros H. rewrite (IH H). reflexivity.
Qed.

Lemma app_nonempty (a b : string) c : String.eqb (a ++ String c b) "" = false.
Proof. destruct a; reflexivity. Qed.

(** ** Query strings *)

Lemma unescape_check_escape_byte c t :
  url.unescape_check (url.escape_byte c url.encodeQueryComponent ++ t)
                     url.encodeQueryComponent
  = url.unescape_check t url.encodeQueryComponent.
Proof. all_bytes c; reflexivity. Qed.

Lemma unescape_bytes_escape_byte c t :
  url.unescape_bytes (url.escape_byte c url.encodeQueryComponent ++ t)
                     url.encodeQueryComponent
  = String c (url.unescape_bytes t url.encodeQueryComponent).
Proof. all_bytes c; reflexivity. Qed.

(** Unescaping undoes escaping. *)
Lemma QueryUnescape_QueryEscape s : url.QueryUnescape (url.QueryEscape s) = Ok s.
Proof.
  unfold url.QueryUnescape, url.QueryEscape, url.unescape.
  assert (Hc : url.unescape_check (url.escape s url.encodeQueryComponent)
                                  url.encodeQueryComponent = None).
  { induction s as [|c s IH]; [reflexivity|]. cbn [url.escape].
    rewrite unescape_check_escape_byte. exact IH. }
  rewrite Hc. clear Hc. f_equal.
  induction s as [|c s IH]; [reflexivity|]. cbn [url.escape].
  rewrite unescape_bytes_escape_byte, IH. reflexivity.
Qed.

Lemma escape_byte_no_separator c d :
  is_separator d = true ->
  gostrings.ContainsByte d (url.escape_byte c url.encodeQueryComponent) = false.
Proof.
  unfold is_separator, byte_in. cbn [existsb list_ascii_of_string].
  rewrite !orb_true_iff, !Ascii.eqb_eq.
  intros [H|[H|[H|H]]]; try discriminate H; subst d; all_bytes c; reflexivity.
Qed.

(** An escaped text holds none of the separators of a query string. *)
Lemma QueryEscape_no_separator s d :
  is_separator d = true -> gostrings.ContainsByte d (url.QueryEscape s) = false.
Proof.
  intros Hd. unfold url.QueryEscape.
  induction s as [|c s IH]; [reflexivity|]. cbn [url.escape].
  rewrite ContainsByte_app, IH, (escape_byte_no_separator c d Hd). reflexivity.
Qed.

Lemma parameter_no_separator p d :
  d = "&"%char \/ d = ";"%char -> gostrings.ContainsByte d (parameter p) = false.
Proof.
  intros Hd. unfold parameter. rewrite !ContainsByte_app.
  rewrite !QueryEscape_no_separator by (destruct Hd as [->| ->]; reflexivity).
  destruct Hd as [->| ->]; reflexivity.
Qed.

Lemma parseQuery_segments_parameter p rest :
  url.parseQuery_segments (parameter p :: rest)
  = (p :: fst (url.parseQuery_segments rest), snd (url.parseQuery_segments rest)).
Proof.
  cbn [url.parseQuery_segments].
  destruct (url.parseQuery_segments rest) as [pairs err].
  rewrite (parameter_no_separator p ";") by auto.
  unfold parameter at 1 2.
  change ("=" ++ url.QueryEscape (snd p)) with (String "=" (url.QueryEscape (snd p))).
  rewrite app_nonempty, Cut_app by (apply QueryEscape_no_separator; reflexivity).
  rewrite !QueryUnescape_QueryEscape. destruct p; reflexivity.
Qed.

(** The receiver of an encoded query string reads back the parameters, in
    order and without error. *)
Lemma parseQuery_parameters (ps : list (string * string)) :
  url.parseQuery (gostrings.Join (map parameter ps) "&") = (ps, None).
Proof.
  unfold url.parseQuery.
  induction ps as [|p [|q ps] IH]; [reflexivity| |].
  - cbn [map gostrings.Join].
    rewrite Split_none by (apply parameter_no_separator; auto).
    rewrite parseQuery_segments_parameter. reflexivity.
  - change (gostrings.Join (map parameter (p :: q :: ps)) "&")
      with (parameter p ++ String "&" (gostrings.Join (map parameter (q :: ps)) "&")).
    rewrite Split_app by (apply parameter_no_separator; auto).
    rewrite parseQuery_segments_parameter, IH. reflexivity.
Qed.

Lemma encode_pairs_parameters (v : url.Values) :
  url.encode_pairs v = map parameter (query_pairs v).
Proof.
  unfold url.encode_pairs, query_pairs.
  induction (url.sorted_keys v) as [|k ks IH]; [reflexivity|].
  cbn [flat_map]. rewrite map_app, IH, map_map. reflexivity.
Qed.

(** Reading an encoded [url.Values] gives back its parameters, in the order
    of the keys, without error. *)
Lemma parseQuery_Encode (v : url.Values) :
  url.parseQuery (url.Encode v) = (query_pairs v, None).
Proof.
  unfold url.Encode. rewrite encode_pairs_parameters. apply parseQuery_parameters.
Qed.

(** The parameters of the values of a filter are its non-empty fields, in
    the order of the parameter names. *)
Lemma query_pairs_filter (f : RecordsFilter) :
  query_pairs (querystring.reflectValue ∅ (querystring.fields_of f))
  = filter_params f.
Proof.
  destruct f as [s n t]. unfold query_pairs, filter_params.
  destruct s as [|s0 s], n as [|n0 n], t as [|t0 t];
    match goal with
    | |- context [url.sorted_keys ?v] =>
        let ks := eval vm_compute in (url.sorted_keys v) in
        replace (url.sorted_keys v) with ks by (vm_compute; reflexivity)
    end;
    cbn [flat_map map filter snd fst negb String.eqb Ascii.eqb app
         Suffix RecordName RecordType];
    repeat match goal with
    | |- context [?v !! ?k] =>
        let r := eval vm_compute in (v !! k) in
        replace (v !! k) with r by (vm_compute; reflexivity)
    end;
    reflexivity.
Qed.

(** ** No query string without a filter *)

Lemma forall_bytes_ContainsByte (p : ascii -> bool) c (s : string) :
  p c = false -> gostrings.forall_bytes p s = true -> gostrings.ContainsByte c s = false.
Proof.
  intros Hc. induction s as [|d s IH]; [reflexivity|].
  simpl. intros H. apply andb_true_iff in H. destruct H as [Hd Hs].
  rewrite (IH Hs), orb_false_r. apply Ascii.eqb_neq. intros ->. congruence.
Qed.

Lemma HasSuffixByte_none c (s : string) :
  gostrings.ContainsByte c s = false -> gostrings.HasSuffixByte s c = false.
Proof.
  induction s as [|d s IH]; [reflexivity|].
  simpl. intros H. apply orb_false_iff in H. destruct H as [Hd Hs].
  destruct s; [rewrite Ascii.eqb_sym; exact Hd | exact (IH Hs)].
Qed.

Lemma Cut_before_none c sep (s : string) :
  gostrings.ContainsByte c s = false ->
  gostrings.ContainsByte c (fst (fst (gostrings.Cut sep s))) = false.
Proof.
  induction s as [|d s IH]; [reflexivity|].
  simpl. intros H. apply orb_false_iff in H. destruct H as [Hd Hs].
  destruct (Ascii.eqb d sep); [reflexivity|].
  specialize (IH Hs). destruct (gostrings.Cut sep s) as [[before after] found].
  simpl in *. rewrite Hd, IH. reflexivity.
Qed.

Lemma getScheme_from_rest c first (s sch rest : string) :
  url.getScheme_from first s = Ok (Some (sch, rest)) ->
  gostrings.ContainsByte c s = false -> gostrings.ContainsByte c rest = false.
Proof.
  revert first sch. induction s as [|d s IH]; intros first sch; [discriminate|].
  simpl. intros H Hc. apply orb_false_iff in Hc. destruct Hc as [_ Hs].
  destruct (is_lower d || is_upper d).
  - destruct (url.getScheme_from false s) as [[[sch' rest']|]|] eqn:E;
      try discriminate H.
    injection H as _ <-. exact (IH _ _ E Hs).
  - destruct (is_digit d || byte_in d "+-.").
    + destruct first; [discriminate H|].
      destruct (url.getScheme_from false s) as [[[sch' rest']|]|] eqn:E;
        try discriminate H.
      injection H as _ <-. exact (IH _ _ E Hs).
    + destruct (Ascii.eqb d ":"); [|discriminate H].
      destruct first; [discriminate H|]. injection H as _ <-. exact Hs.
Qed.

Lemma getScheme_rest c (s sch rest : string) :
  url.getScheme s = Ok (sch, rest) ->
  gostrings.ContainsByte c s = false -> gostrings.ContainsByte c rest = false.
Proof.
  unfold url.getScheme.
  destruct (url.getScheme_from true s) as [[[sch' rest']|]|] eqn:E; intros H Hc;
    try discriminate H.
  - injection H as _ <-. exact (getScheme_from_rest _ _ _ _ _ E Hc).
  - injection H as _ <-. exact Hc.
Qed.

Lemma setPath_query u p u' :
  url.setPath u p = Ok u' -> query_of u' = query_of u.
Proof.
  unfold url.setPath. destruct (url.unescape p url.encodePath); [|discriminate].
  destruct (String.eqb p _); intros H; injection H as <-; reflexivity.
Qed.

Lemma setFragment_query u f u' :
  url.setFragment u f = Ok u' -> query_of u' = query_of u.
Proof.
  unfold url.setFragment. destruct (url.unescape f url.encodeFragment); [|discriminate].
  destruct (String.eqb f _); intros H; injection H as <-; reflexivity.
Qed.

Lemma parse_no_query (rawURL : string) u :
  gostrings.ContainsByte "?" rawURL = false ->
  url.parse rawURL = Ok u -> query_of u = ("", false).
Proof.
  intros Hq. unfold url.parse.
  destruct (url.stringContainsCTLByte rawURL); [discriminate|].
  destruct (String.eqb rawURL "*"); [intros H; injection H as <-; reflexivity|].
  destruct (url.getScheme rawURL) as [[scheme rest]|e] eqn:E; [|discriminate].
  pose proof (getScheme_rest "?" _ _ _ E Hq) as Hrest.
  rewrite (HasSuffixByte_none _ _ Hrest), (Cut_none _ _ Hrest). cbn [andb].
  repeat match goal with
    | |- (if ?b then _ else _) = _ -> _ => destruct b
    | |- context [gostrings.Cut "/" ?x] =>
        destruct (gostrings.Cut "/" x) as [[? ?] ?]
    | |- match ?x with Ok _ => _ | Err _ => _ end = _ -> _ => destruct x
    end;
    intros H; try discriminate H;
    try (injection H as <-; reflexivity);
    apply setPath_query in H; exact H.
Qed.

(** A URL text without a question mark parses to a URL without a query. *)
Lemma Parse_no_query (rawURL : string) u :
  gostrings.ContainsByte "?" rawURL = false ->
  url.Parse rawURL = Ok u -> query_of u = ("", false).
Proof.
  intros Hq. unfold url.Parse.
  pose proof (Cut_before_none "?" "#" rawURL Hq) as Hb.
  destruct (gostrings.Cut "#" rawURL) as [[u0 frag] found]. cbn [fst] in Hb.
  destruct (url.parse u0) as [url0|e] eqn:E; [|discriminate].
  pose proof (parse_no_query _ _ Hb E) as H0.
  destruct (String.eqb frag ""); [intros H; injection H as <-; exact H0|].
  destruct (url.setFragment url0 frag) as [url1|e] eqn:F; [|discriminate].
  intros H; injection H as <-. rewrite (setFragment_query _ _ _ F). exact H0.
Qed.

Lemma escape_byte_path_no_query c :
  gostrings.ContainsByte "?" (url.escape_byte c url.encodePath) = false.
Proof. all_bytes c; reflexivity. Qed.

Lemma escape_path_no_query (s : string) :
  gostrings.ContainsByte "?" (url.escape s url.encodePath) = false.
Proof.
  induction s as [|c s IH]; [reflexivity|]. cbn [url.escape].
  rewrite ContainsByte_app, IH, escape_byte_path_no_query. reflexivity.
Qed.

Lemma EscapedPath_no_query u :
  gostrings.ContainsByte "?" (url.EscapedPath u) = false.
Proof.
  unfold url.EscapedPath.
  destruct (url.validEncoded (url.RawPath u) url.encodePath) eqn:V.
  - destruct (negb (String.eqb (url.RawPath u) "") && true && _).
    + revert V. apply forall_bytes_ContainsByte. reflexivity.
    + destruct (String.eqb (url.Path u) "*"); [reflexivity|].
      apply escape_path_no_query.
  - rewrite andb_false_r. cbn [andb].
    destruct (String.eqb (url.Path u) "*"); [reflexivity|].
    apply escape_path_no_query.
Qed.

Lemma JoinPath_shape u elem :
  exists p rp, url.JoinPath u elem = url.with_Path u p rp.
Proof.
  unfold url.JoinPath.
  match goal with |- context [url.setPath u ?p] => generalize p end.
  intros p. unfold url.setPath.
  destruct (url.unescape p url.encodePath) as [p'|e].
  - destruct (String.eqb p _); eauto.
  - exists (url.Path u), (url.RawPath u). destruct u; reflexivity.
Qed.

(** The text of an endpoint under the base URL holds no question mark. *)
Lemma endpoint_no_query elem :
  gostrings.ContainsByte "?" (url.String_ (url.JoinPath parsedBaseURL elem)) = false.
Proof.
  destruct (JoinPath_shape parsedBaseURL elem) as (p & rp & ->).
  unfold url.String_.
  cbn [url.Scheme url.Opaque url.Host url.OmitHost url.ForceQuery url.RawQuery
       url.Fragment url.with_Path parsedBaseURL String.eqb Ascii.eqb negb orb andb
       Bool.eqb].
  generalize (url.EscapedPath (url.with_Path parsedBaseURL p rp))
             (EscapedPath_no_query (url.with_Path parsedBaseURL p rp)).
  intros ep Hep. cbn [url.Path url.with_Path].
  rewrite !ContainsByte_app, Hep.
  destruct (negb (String.eqb ep "") && _ && _);
    destruct (negb (String.eqb p "")); vm_compute; reflexivity.
Qed.

Lemma NewRequestWithContext_query ctx method rawURL b req :
  gostrings.ContainsByte "?" rawURL = false ->
  http.NewRequestWithContext ctx method rawURL b = Ok req ->
  query_of (http.URL req) = ("", false).
Proof.
  intros Hq. unfold http.NewRequestWithContext.
  destruct (negb (http.validMethod _)); [discriminate|].
  destruct ctx as [c|]; [|discriminate].
  destruct (url.Parse rawURL) as [u|e] eqn:E; [|discriminate].
  intros H. injection H as <-. exact (Parse_no_query _ _ Hq E).
Qed.

Lemma makeRequest_query (c : Client) ctx method elem b req :
  makeRequest c ctx method (url.JoinPath parsedBaseURL elem) b = Ok req ->
  query_of (http.URL req) = ("", false).
Proof.
  unfold makeRequest.
  destruct (http.NewRequestWithContext _ _ _ _) as [req0|e] eqn:E; [|discriminate].
  intros H. injection H as <-.
  exact (NewRequestWithContext_query _ _ _ _ _ (endpoint_no_query elem) E).
Qed.

Lemma Encode_filter (f : RecordsFilter) :
  url.Encode (querystring.reflectValue ∅ (querystring.fields_of f))
  = gostrings.Join (map parameter (filter_params f)) "&".
Proof.
  unfold url.Encode. rewrite encode_pairs_parameters, query_pairs_filter.
  reflexivity.
Qed.

Lemma GetRecords_request (c : Client) ctx zoneID filter req :
  In req (requests (GetRecords c ctx zoneID filter)) ->
  exists req0,
    makeRequest c ctx http.MethodGet
                (url.JoinPath (BaseURL c) ["v1"; "zones"; zoneID]) None = Ok req0
    /\ apply_filter req0 filter = Ok req.
Proof.
  unfold GetRecords. intros H. the_request H; eauto.
Qed.

(** C5.  The request [GetRecords] sends for a client made by [NewClient]:
    with a filter, its query string is the parameters of the non-empty
    fields of the filter, one [name=value] per field, joined by [&], and its
    receiver reads back exactly those names and values; without a filter it
    has no query string. *)
Theorem filter_query_string dc (k : string) (c : Client) ctx zoneID filter req :
  NewClient dc k = Ok c ->
  In req (requests (GetRecords c ctx zoneID filter)) ->
  match filter with
  | Some f =>
      url.RawQuery (http.URL req)
      = gostrings.Join (map parameter (filter_params f)) "&"
      /\ url.parseQuery (url.RawQuery (http.URL req)) = (filter_params f, None)
  | None =>
      url.RawQuery (http.URL req) = "" /\ url.ForceQuery (http.URL req) = false
  end.
Proof.
  intros Hc Hin.
  rewrite (NewClient_Ok dc k) in Hc. injection Hc as <-.
  destruct (GetRecords_request _ _ _ _ _ Hin) as (req0 & Hmk & Hf).
  cbn [BaseURL] in Hmk.
  destruct filter as [f|]; unfold apply_filter, querystring.Values in Hf;
    injection Hf as <-.
  - pose proof (Encode_filter f) as E. split; [exact E|].
    rewrite <- (parseQuery_parameters (filter_params f)). f_equal. exact E.
  - pose proof (makeRequest_query _ _ _ _ _ _ Hmk) as Hq.
    unfold query_of in Hq. injection Hq as -> ->. split; reflexivity.
Qed.

Lemma filter_query_string_witness :
  exists req,
    requests (GetRecords (mkClient (always (response_with 200 "{}")) parsedBaseURL "key")
                         background "z" (Some (mkRecordsFilter "a b" "" "TXT")))
    = [req]
    /\ url.RawQuery (http.URL req) = "recordType=TXT&suffix=a+b"
    /\ url.parseQuery (url.RawQuery (http.URL req))
       = ([("recordType", "TXT"); ("suffix", "a b")], None).
Proof.
  eexists. split; [vm_compute; reflexivity|].
  refine (filter_query_string (always (response_with 200 "{}")) "key" _ background "z"
            (Some (mkRecordsFilter "a b" "" "TXT")) _ eq_refl _).
  vm_compute. left. reflexivity.
Defined.

(** ** Paths of plain segments *)








Lemma forall_bytes_app p (a b : string) :
  gostrings.forall_bytes p (a ++ b)
  = gostrings.forall_bytes p a && gostrings.forall_bytes p b.
Proof.
  induction a as [|c a IH]; [reflexivity|].
  simpl. rewrite IH. apply andb_assoc.
Qed.


Lemma append_empty (s : string) : s ++ "" = s.
Proof.
  induction s as [|c s IH]; [reflexivity|].
  change (String c s ++ "") with (String c (s ++ "")). rewrite IH. reflexivity.
Qed.



Lemma app_cons c (s t : string) : String c s ++ t = String c (s ++ t).
Proof. reflexivity. Qed.

Lemma app_assoc_string (a b c : string) : (a ++ b) ++ c = a ++ (b ++ c).
Proof.
  induction a as [|x a IH]; [reflexivity|].
  rewrite !app_cons, IH. reflexivity.
Qed.
















(** ** Methods and paths *)







(** * Further properties of the client

    ** Calls that do not reach the server *)

(** X1.  With a [nil] context no operation reaches the transport: each
    returns the error of [http.NewRequestWithContext] under the prefix
    [failed to create request: ], which [makeRequest] and the operation
    each add, so that it stands twice; no request is sent and no response
    body is held. *)
Theorem nil_context_sends_nothing jm (c : Client) zoneID recordID records filter body :
  ListZones c None = mkCall (Err nil_context_error) [] None
  /\ (jm records = Ok body ->
      ReplaceRecords jm c None zoneID records = mkCall (Some nil_context_error) [] None)
  /\ GetRecords c None zoneID filter = mkCall (Err nil_context_error) [] None
  /\ RemoveRecord c None zoneID recordID = mkCall (Some nil_context_error) [] None.
Proof.
  split; [reflexivity|]. split; [|split; reflexivity].
  intros Hm. unfold ReplaceRecords. rewrite Hm. reflexivity.
Qed.

Lemma nil_context_sends_nothing_witness :
  ReplaceRecords no_body (client_of (always (response_with 200 ""))) None "z" []
  = mkCall (Some nil_context_error) [] None.
Proof.
  exact (proj1 (proj2 (nil_context_sends_nothing no_body
           (client_of (always (response_with 200 ""))) "z" "r" [] None "[]")) eq_refl).
Defined.

Ltac exchange :=
  repeat match goal with
    | |- context [match ?x with Ok _ => _ | Err _ => _ end] =>
        let E := fresh "E" in destruct x eqn:E
    end;
  first [ left; split; reflexivity
        | right; left; do 2 eexists; repeat split; eassumption
        | right; right; do 3 eexists;
          split; [reflexivity|]; split; [eassumption|]; split; reflexivity ].

(** X2.  Every operation, on every client, context and argument, hands the
    transport at most one request: it sends none, or one that the
    transport failed, or one whose response body it has closed when it
    returns. *)
Theorem one_exchange_per_call jm (c : Client) ctx zoneID recordID records filter :
  single_exchange c (ListZones c ctx)
  /\ single_exchange c (ReplaceRecords jm c ctx zoneID records)
  /\ single_exchange c (GetRecords c ctx zoneID filter)
  /\ single_exchange c (RemoveRecord c ctx zoneID recordID).
Proof.
  unfold single_exchange, ListZones, ReplaceRecords, GetRecords, RemoveRecord.
  split; [|split; [|split]]; exchange.
Qed.

Ltac transport_failed Hreq Hdo :=
  repeat match type of Hreq with
    | context [match ?x with Ok _ => _ | Err _ => _ end] =>
        let E := fresh "E" in destruct x eqn:E; cbn in Hreq; try discriminate Hreq
    end;
  try (injection Hreq as Hreq; subst);
  try match goal with
      | E : http.Do _ _ = Ok _ |- _ => rewrite E in Hdo; discriminate Hdo
      | E : http.Do _ _ = Err _ |- _ => rewrite E in Hdo; injection Hdo as <-
      end;
  split; reflexivity.

(** X3.  When the transport fails the request of an operation with an
    error, the operation returns that error under the prefix
    [failed to call API: ] and holds no response body. *)
Theorem transport_error_wrapped jm (c : Client) ctx zoneID recordID records filter
    (req : http.Request) (e : error) :
  http.Do (HTTPClient c) req = Err e ->
  (requests (ListZones c ctx) = [req] ->
   returned (ListZones c ctx) = Err (wrapError "failed to call API: " e)
   /\ body (ListZones c ctx) = None)
  /\ (requests (ReplaceRecords jm c ctx zoneID records) = [req] ->
      returned (ReplaceRecords jm c ctx zoneID records)
      = Some (wrapError "failed to call API: " e)
      /\ body (ReplaceRecords jm c ctx zoneID records) = None)
  /\ (requests (GetRecords c ctx zoneID filter) = [req] ->
      returned (GetRecords c ctx zoneID filter) = Err (wrapError "failed to call API: " e)
      /\ body (GetRecords c ctx zoneID filter) = None)
  /\ (requests (RemoveRecord c ctx zoneID recordID) = [req] ->
      returned (RemoveRecord c ctx zoneID recordID)
      = Some (wrapError "failed to call API: " e)
      /\ body (RemoveRecord c ctx zoneID recordID) = None).
Proof.
  intros Hdo.
  split; [|split; [|split]]; intros Hreq.
  - unfold ListZones in *. transport_failed Hreq Hdo.
  - unfold ReplaceRecords in *. transport_failed Hreq Hdo.
  - unfold GetRecords in *. transport_failed Hreq Hdo.
  - unfold RemoveRecord in *. transport_failed Hreq Hdo.
Qed.

Lemma transport_error_wrapped_witness :
  exists req,
    requests (RemoveRecord (client_of (failing (errorString "dial tcp: i/o timeout")))
                           background "z" "r") = [req]
    /\ returned (RemoveRecord (client_of (failing (errorString "dial tcp: i/o timeout")))
                              background "z" "r")
       = Some (wrapError "failed to call API: " (errorString "dial tcp: i/o timeout")).
Proof.
  eexists. split; [reflexivity|].
  exact (proj1 (proj2 (proj2 (proj2
           (transport_error_wrapped no_body
              (client_of (failing (errorString "dial tcp: i/o timeout")))
              background "z" "r" [] None _ (errorString "dial tcp: i/o timeout")
              eq_refl))) eq_refl)).
Defined.

(** ** Requests are built for every identifier *)

Lemma wire_safe_facts c :
  wire_safe c = true ->
  Ascii.eqb c "#" = false /\ Ascii.eqb c "?" = false
  /\ ((N_of_ascii c <? 32)%N || (N_of_ascii c =? 127)%N) = false.
Proof.
  unfold wire_safe. rewrite !andb_true_iff, !negb_true_iff. tauto.
Qed.

Lemma escape_byte_path_wire_safe c :
  gostrings.forall_bytes wire_safe (url.escape_byte c url.encodePath) = true.
Proof. all_bytes c; reflexivity. Qed.

Lemma escape_path_wire_safe (s : string) :
  gostrings.forall_bytes wire_safe (url.escape s url.encodePath) = true.
Proof.
  induction s as [|c s IH]; [reflexivity|]. cbn [url.escape].
  rewrite forall_bytes_app, escape_byte_path_wire_safe, IH. reflexivity.
Qed.

Lemma valid_byte_wire_safe c :
  byte_in c "!$&'()*+,;=:@[]%" || negb (url.shouldEscape c url.encodePath) = true ->
  wire_safe c = true.
Proof. all_bytes c; intros H; first [reflexivity | discriminate H]. Qed.

Lemma validEncoded_wire_safe (s : string) :
  url.validEncoded s url.encodePath = true -> gostrings.forall_bytes wire_safe s = true.
Proof.
  unfold url.validEncoded. induction s as [|c s IH]; [reflexivity|].
  cbn [gostrings.forall_bytes]. intros H. apply andb_true_iff in H.
  destruct H as [Hc Hs]. rewrite (valid_byte_wire_safe c Hc), (IH Hs). reflexivity.
Qed.

Lemma unescape_check_escape_byte_path c t :
  url.unescape_check (url.escape_byte c url.encodePath ++ t) url.encodePath
  = url.unescape_check t url.encodePath.
Proof. all_bytes c; reflexivity. Qed.

Lemma unescape_bytes_escape_byte_path c t :
  url.unescape_bytes (url.escape_byte c url.encodePath ++ t) url.encodePath
  = String c (url.unescape_bytes t url.encodePath).
Proof. all_bytes c; reflexivity. Qed.

Lemma unescape_escape_path (s : string) :
  url.unescape (url.escape s url.encodePath) url.encodePath = Ok s.
Proof.
  unfold url.unescape.
  assert (Hc : url.unescape_check (url.escape s url.encodePath) url.encodePath = None).
  { induction s as [|c s IH]; [reflexivity|]. cbn [url.escape].
    rewrite unescape_check_escape_byte_path. exact IH. }
  rewrite Hc. clear Hc. f_equal.
  induction s as [|c s IH]; [reflexivity|]. cbn [url.escape].
  rewrite unescape_bytes_escape_byte_path, IH. reflexivity.
Qed.

(** The escaped path of a URL denotes its path and is fit for the text of
    a URL. *)
Lemma EscapedPath_sound u :
  url.unescape (url.EscapedPath u) url.encodePath = Ok (url.Path u)
  /\ gostrings.forall_bytes wire_safe (url.EscapedPath u) = true.
Proof.
  unfold url.EscapedPath.
  destruct (negb (String.eqb (url.RawPath u) "")); cbn [andb].
  - destruct (url.validEncoded (url.RawPath u) url.encodePath) eqn:V; cbn [andb].
    + destruct (url.unescape (url.RawPath u) url.encodePath) as [p|e] eqn:U.
      * destruct (String.eqb p (url.Path u)) eqn:E.
        -- apply String.eqb_eq in E. subst p.
           split; [exact U | exact (validEncoded_wire_safe _ V)].
        -- destruct (String.eqb (url.Path u) "*") eqn:S.
           ++ apply String.eqb_eq in S. rewrite S. split; reflexivity.
           ++ split; [apply unescape_escape_path | apply escape_path_wire_safe].
      * destruct (String.eqb (url.Path u) "*") eqn:S.
        -- apply String.eqb_eq in S. rewrite S. split; reflexivity.
        -- split; [apply unescape_escape_path | apply escape_path_wire_safe].
    + destruct (String.eqb (url.Path u) "*") eqn:S.
      * apply String.eqb_eq in S. rewrite S. split; reflexivity.
      * split; [apply unescape_escape_path | apply escape_path_wire_safe].
  - destruct (String.eqb (url.Path u) "*") eqn:S.
    + apply String.eqb_eq in S. rewrite S. split; reflexivity.
    + split; [apply unescape_escape_path | apply escape_path_wire_safe].
Qed.

Lemma wire_safe_no c (s : string) :
  wire_safe c = false -> gostrings.forall_bytes wire_safe s = true ->
  gostrings.ContainsByte c s = false.
Proof. apply forall_bytes_ContainsByte. Qed.

Lemma wire_safe_no_CTL (s : string) :
  gostrings.forall_bytes wire_safe s = true -> url.stringContainsCTLByte s = false.
Proof.
  unfold url.stringContainsCTLByte. intros H. apply negb_false_iff.
  induction s as [|c s IH]; [reflexivity|].
  cbn [gostrings.forall_bytes] in *. apply andb_true_iff in H. destruct H as [Hc Hs].
  destruct (wire_safe_facts c Hc) as (_ & _ & ->). exact (IH Hs).
Qed.

Lemma Parse_origin (x P : string) :
  rooted_or_empty x = true ->
  gostrings.forall_bytes wire_safe x = true ->
  url.unescape x url.encodePath = Ok P ->
  exists rp, url.Parse (origin ++ x) = Ok (url.with_Path parsedBaseURL P rp).
Proof.
  intros Hx H HP. unfold url.Parse.
  assert (Hall : gostrings.forall_bytes wire_safe (origin ++ x) = true).
  { rewrite forall_bytes_app, H. reflexivity. }
  rewrite (Cut_none "#" _ (wire_safe_no "#" _ eq_refl Hall)).
  unfold url.parse. rewrite (wire_safe_no_CTL _ Hall).
  change (String.eqb (origin ++ x) "*") with false. cbv iota.
  change (url.getScheme (origin ++ x))
    with (@Ok (string * string) ("https", "//api.hosting.ionos.com" ++ x)).
  cbv iota beta.
  change (gostrings.ToLower "https") with "https".
  assert (Hq : gostrings.ContainsByte "?" ("//api.hosting.ionos.com" ++ x) = false).
  { apply (wire_safe_no "?"); [reflexivity|]. rewrite forall_bytes_app, H. reflexivity. }
  rewrite (HasSuffixByte_none _ _ Hq), (Cut_none _ _ Hq).
  cbn [andb].
  change (gostrings.HasPrefix ("//api.hosting.ionos.com" ++ x) "/") with true.
  change (gostrings.HasPrefix ("//api.hosting.ionos.com" ++ x) "//") with true.
  change (gostrings.drop 2 ("//api.hosting.ionos.com" ++ x))
    with ("api.hosting.ionos.com" ++ x).
  cbn [negb andb orb String.eqb Ascii.eqb Bool.eqb].
  assert (Hcut : exists y,
             gostrings.Cut "/" ("api.hosting.ionos.com" ++ x)
             = ("api.hosting.ionos.com", y, negb (String.eqb x ""))
             /\ (if negb (String.eqb x "") then String "/" y else "") = x).
  { destruct x as [|c x]; [exists ""; split; reflexivity|].
    unfold rooted_or_empty in Hx. cbn [String.eqb orb gostrings.HasPrefix] in Hx.
    rewrite andb_true_r in Hx. apply Ascii.eqb_eq in Hx. subst c.
    exists x. split; [|reflexivity]. apply (Cut_app "/" "api.hosting.ionos.com" x eq_refl). }
  destruct Hcut as (y & -> & Hy). rewrite Hy.
  change (url.parseAuthority "api.hosting.ionos.com") with (@Ok string "api.hosting.ionos.com").
  cbv iota beta. unfold url.setPath. rewrite HP.
  destruct (String.eqb x (url.escape P url.encodePath)); eexists; reflexivity.
Qed.

Lemma join_elems_head c (b : string) (elems : list string) :
  exists t, path.join_elems (String c b) elems = String c t.
Proof.
  revert b. induction elems as [|e rest IH]; intros b; [eauto|].
  cbn [path.join_elems String.eqb negb orb]. apply IH.
Qed.

Lemma Clean_rooted (s : string) :
  exists t, path.Clean (String "/" s) = String "/" t.
Proof. unfold path.Clean. eexists. reflexivity. Qed.

Lemma unescape_rooted (x p : string) :
  url.unescape (String "/" x) url.encodePath = Ok p -> exists t, p = String "/" t.
Proof.
  unfold url.unescape.
  destruct (url.unescape_check (String "/" x) url.encodePath); [discriminate|].
  intros H. injection H as <-. eexists. reflexivity.
Qed.

Lemma escape_rooted (x : string) :
  url.escape (String "/" x) url.encodePath = String "/" (url.escape x url.encodePath).
Proof. reflexivity. Qed.

(** The endpoints of the client have a rooted path, in plain and in
    escaped form. *)
Lemma JoinPath_rooted (elems : list string) :
  exists p rp x,
    url.JoinPath parsedBaseURL elems = url.with_Path parsedBaseURL (String "/" p) rp
    /\ url.EscapedPath (url.JoinPath parsedBaseURL elems) = String "/" x.
Proof.
  unfold url.JoinPath.
  change (url.EscapedPath parsedBaseURL) with "/dns".
  change (gostrings.HasPrefix "/dns" "/") with true. cbv iota beta zeta.
  assert (Hj : exists t, path.Join ("/dns" :: elems) = String "/" t).
  { unfold path.Join.
    change (forallb (String.eqb "") ("/dns" :: elems)) with false. cbv iota.
    change (path.join_elems "" ("/dns" :: elems)) with (path.join_elems "/dns" elems).
    destruct (join_elems_head "/" "dns" elems) as [t ->]. apply Clean_rooted. }
  destruct Hj as [t ->].
  match goal with
  | |- context [url.setPath parsedBaseURL ?q] =>
      assert (Hq : exists t', q = String "/" t')
        by (destruct (_ && _); eexists; reflexivity);
      destruct Hq as [t' ->]
  end.
  unfold url.setPath.
  destruct (url.unescape (String "/" t') url.encodePath) as [p|e] eqn:U.
  - destruct (unescape_rooted _ _ U) as [p' ->].
    destruct (String.eqb (String "/" t') _) eqn:E.
    + exists p', "". eexists. split; [reflexivity|]. reflexivity.
    + exists p', (String "/" t').
      unfold url.EscapedPath.
      cbn [url.RawPath url.Path url.with_Path String.eqb negb andb].
      destruct (url.validEncoded (String "/" t') url.encodePath); cbn [andb].
      * rewrite U, String.eqb_refl. eexists. split; reflexivity.
      * eexists. split; reflexivity.
  - exists "dns", "", "dns". split; reflexivity.
Qed.

Lemma String_rooted (P rp x : string) :
  url.EscapedPath (url.with_Path parsedBaseURL P rp) = String "/" x ->
  url.String_ (url.with_Path parsedBaseURL P rp) = origin ++ String "/" x.
Proof.
  intros H. unfold url.String_. rewrite H.
  cbn [url.Scheme url.Opaque url.Host url.OmitHost url.ForceQuery url.RawQuery
       url.Fragment url.Path url.RawPath url.with_Path parsedBaseURL].
  destruct (negb (String.eqb P "")); vm_compute; repeat f_equal; exact (append_empty x).
Qed.

Lemma validMethod_nonempty (method : string) :
  http.validMethod method = true -> String.eqb method "" = false.
Proof.
  unfold http.validMethod. destruct (String.eqb method ""); [discriminate | reflexivity].
Qed.

(** The request made for an endpoint of the client: one is made for every
    list of segments, and its URL is the base URL with the path of the
    endpoint. *)
Lemma makeRequest_total (c : Client) (cx : http.Context) (method : string)
    (elems : list string) (b : option string) :
  http.validMethod method = true ->
  exists req rp,
    makeRequest c (Some cx) method (url.JoinPath parsedBaseURL elems) b = Ok req
    /\ http.Method req = method
    /\ http.URL req
       = url.with_Path parsedBaseURL (url.Path (url.JoinPath parsedBaseURL elems)) rp
    /\ http.ReqHost req = "api.hosting.ionos.com"
    /\ http.ReqBody req = b.
Proof.
  intros Hm. destruct (JoinPath_rooted elems) as (p & rp & x & He & Hx).
  destruct (EscapedPath_sound (url.JoinPath parsedBaseURL elems)) as [Hu Hw].
  rewrite Hx in Hu, Hw.
  unfold makeRequest. rewrite He in *.
  rewrite (String_rooted _ _ _ Hx).
  unfold http.NewRequestWithContext.
  rewrite (validMethod_nonempty _ Hm), Hm. cbn [negb].
  destruct (Parse_origin (String "/" x) _ eq_refl Hw Hu) as [rp' ->].
  do 2 eexists. split; [reflexivity|]. repeat split; reflexivity.
Qed.

(** X4.  A client made by [NewClient] builds its request for every zone and
    record identifier, whatever bytes it holds, and for every filter: with
    a context the operation hands the transport one request with its
    method, whose URL is, its query string apart, the base URL with the
    path [JoinPath] gave the endpoint, and whose host is that of the base
    URL. *)
Theorem request_always_built dc jm (k : string) (c : Client) (cx : http.Context)
    zoneID recordID records filter (body : string) :
  NewClient dc k = Ok c ->
  built_for (ListZones c (Some cx)) "GET" ["v1"; "zones"]
  /\ (jm records = Ok body ->
      built_for (ReplaceRecords jm c (Some cx) zoneID records) "PATCH"
                ["v1"; "zones"; zoneID])
  /\ built_for (GetRecords c (Some cx) zoneID filter) "GET" ["v1"; "zones"; zoneID]
  /\ built_for (RemoveRecord c (Some cx) zoneID recordID) "DELETE"
               ["v1"; "zones"; zoneID; "records"; recordID].
Proof.
  intros Hc. rewrite (NewClient_Ok dc k) in Hc. injection Hc as <-.
  unfold built_for.
  split; [|split; [|split]].
  - unfold ListZones.
    destruct (makeRequest_total (mkClient dc parsedBaseURL k) cx http.MethodGet
                ["v1"; "zones"] None eq_refl) as (req & rp & Hmk & Hm & Hu & Hh & _).
    cbn [BaseURL]. rewrite Hmk. exists req, rp.
    rewrite Hu. destruct (http.Do _ _); repeat split; assumption.
  - intros Hj. unfold ReplaceRecords. rewrite Hj.
    destruct (makeRequest_total (mkClient dc parsedBaseURL k) cx http.MethodPatch
                ["v1"; "zones"; zoneID] (Some body) eq_refl)
      as (req & rp & Hmk & Hm & Hu & Hh & _).
    cbn [BaseURL]. rewrite Hmk. exists req, rp.
    rewrite Hu. destruct (http.Do _ _); repeat split; assumption.
  - unfold GetRecords.
    destruct (makeRequest_total (mkClient dc parsedBaseURL k) cx http.MethodGet
                ["v1"; "zones"; zoneID] None eq_refl)
      as (req & rp & Hmk & Hm & Hu & Hh & _).
    cbn [BaseURL]. rewrite Hmk.
    destruct filter as [f|]; unfold apply_filter, querystring.Values.
    + eexists. exists rp.
      destruct (http.Do _ _); (split; [reflexivity|]);
        cbn [http.Method http.URL http.ReqHost http.with_URL]; rewrite Hu;
        repeat split; assumption.
    + exists req, rp. rewrite Hu. destruct (http.Do _ _); repeat split; assumption.
  - unfold RemoveRecord.
    destruct (makeRequest_total (mkClient dc parsedBaseURL k) cx http.MethodDelete
                ["v1"; "zones"; zoneID; "records"; recordID] None eq_refl)
      as (req & rp & Hmk & Hm & Hu & Hh & _).
    cbn [BaseURL]. rewrite Hmk. exists req, rp.
    rewrite Hu. destruct (http.Do _ _); repeat split; assumption.
Qed.

Lemma request_always_built_witness :
  built_for (RemoveRecord (mkClient (always (response_with 200 "")) parsedBaseURL "key")
                          (Some (http.ctx_of 7)) "a b/../%zz" "?#")
            "DELETE" ["v1"; "zones"; "a b/../%zz"; "records"; "?#"].
Proof.
  exact (proj2 (proj2 (proj2 (request_always_built (always (response_with 200 "")) no_body
           "key" _ (http.ctx_of 7) "a b/../%zz" "?#" [] None "[]" eq_refl)))).
Defined.

(** ** The empty zone identifier *)

Lemma Split_nonempty sep (s : string) : gostrings.Split sep s <> [].
Proof.
  destruct s as [|c s]; [discriminate|]. cbn [gostrings.Split].
  destruct (Ascii.eqb c sep); [discriminate|].
  destruct (gostrings.Split sep s); discriminate.
Qed.

Lemma Split_trailing sep (s : string) :
  gostrings.Split sep (s ++ String sep "") = (gostrings.Split sep s ++ [""])%list.
Proof.
  induction s as [|c s IH].
  - change ("" ++ String sep "") with (String sep "").
    cbn [gostrings.Split]. rewrite Ascii.eqb_refl. reflexivity.
  - rewrite app_cons. cbn [gostrings.Split]. rewrite IH.
    destruct (Ascii.eqb c sep); [reflexivity|].
    pose proof (Split_nonempty sep s) as Hn.
    destruct (gostrings.Split sep s); [contradiction | reflexivity].
Qed.

Lemma clean_elems_app rooted (l1 l2 out : list string) :
  path.clean_elems rooted (l1 ++ l2) out
  = path.clean_elems rooted l2 (path.clean_elems rooted l1 out).
Proof.
  revert out. induction l1 as [|e l1 IH]; intros out; [reflexivity|].
  cbn [app path.clean_elems].
  destruct (String.eqb e "" || String.eqb e "."); [apply IH|].
  destruct (String.eqb e "..").
  - destruct out as [|top out']; [destruct rooted; apply IH|].
    destruct (String.eqb top ".."); apply IH.
  - apply IH.
Qed.

(** [path.Clean] drops a trailing slash. *)
Lemma Clean_trailing_slash (p : string) :
  p <> "" -> path.Clean (p ++ "/") = path.Clean p.
Proof.
  destruct p as [|c p]; [contradiction|]. intros _.
  rewrite app_cons. unfold path.Clean.
  rewrite <- app_cons, Split_trailing, clean_elems_app. reflexivity.
Qed.

Lemma join_elems_app (buf : string) (l1 l2 : list string) :
  path.join_elems buf (l1 ++ l2) = path.join_elems (path.join_elems buf l1) l2.
Proof.
  revert buf. induction l1 as [|e l1 IH]; intros buf; [reflexivity|].
  cbn [app path.join_elems].
  destruct (negb (String.eqb buf "") || negb (String.eqb e "")); apply IH.
Qed.

(** An empty last element after a non-empty one changes nothing of the
    joined path. *)
Lemma JoinPath_empty_zone (u : url.URL) :
  url.JoinPath u ["v1"; "zones"; ""] = url.JoinPath u ["v1"; "zones"].
Proof.
  unfold url.JoinPath.
  generalize (if gostrings.HasPrefix (url.EscapedPath u) "/"
              then url.EscapedPath u else "/" ++ url.EscapedPath u).
  intros e0.
  assert (Hj : path.Join [e0; "v1"; "zones"; ""] = path.Join [e0; "v1"; "zones"]).
  { unfold path.Join. cbn [forallb String.eqb Ascii.eqb andb].
    rewrite !andb_false_r.
    change [e0; "v1"; "zones"; ""] with ([e0; "v1"; "zones"] ++ [""])%list.
    rewrite join_elems_app.
    assert (Hb : exists c b, path.join_elems "" [e0; "v1"; "zones"] = String c b).
    { destruct e0; eexists; eexists; reflexivity. }
    destruct Hb as (c & b & ->).
    cbn [path.join_elems String.eqb negb orb].
    rewrite append_empty. apply Clean_trailing_slash. discriminate. }
  rewrite Hj. reflexivity.
Qed.

Lemma makeRequest_other (c : Client) ctx m1 m2 ep b1 b2 req1 :
  http.validMethod m1 = true -> http.validMethod m2 = true ->
  makeRequest c ctx m1 ep b1 = Ok req1 ->
  exists req2,
    makeRequest c ctx m2 ep b2 = Ok req2
    /\ http.URL req2 = http.URL req1 /\ http.Header_ req2 = http.Header_ req1.
Proof.
  intros H1 H2. unfold makeRequest, http.NewRequestWithContext.
  rewrite (validMethod_nonempty _ H1), (validMethod_nonempty _ H2), H1, H2. cbn [negb].
  destruct ctx as [cx|]; [|discriminate].
  destruct (url.Parse (url.String_ ep)) as [u|e]; [|discriminate].
  intros H. injection H as <-. eexists. repeat split; reflexivity.
Qed.

(** X5.  An empty zone identifier addresses the collection of zones:
    [GetRecords] without a filter then sends the very request of
    [ListZones], and [ReplaceRecords] a request to the same URL. *)
Theorem empty_zone_addresses_collection jm (c : Client) ctx records (body : string) :
  requests (GetRecords c ctx "" None) = requests (ListZones c ctx)
  /\ (jm records = Ok body ->
      map http.URL (requests (ReplaceRecords jm c ctx "" records))
      = map http.URL (requests (ListZones c ctx))).
Proof.
  split.
  - unfold GetRecords, ListZones. rewrite JoinPath_empty_zone.
    destruct (makeRequest c ctx http.MethodGet _ None) as [req|e]; [|reflexivity].
    cbn [apply_filter]. destruct (http.Do (HTTPClient c) req); reflexivity.
  - intros Hj. unfold ReplaceRecords, ListZones. rewrite Hj, JoinPath_empty_zone.
    destruct (makeRequest c ctx http.MethodGet _ None) as [req|e] eqn:E.
    + destruct (makeRequest_other c ctx http.MethodGet http.MethodPatch _ None
                  (Some body) req eq_refl eq_refl E) as (req2 & -> & Hu & _).
      destruct (http.Do (HTTPClient c) req), (http.Do (HTTPClient c) req2);
        cbn; rewrite Hu; reflexivity.
    + destruct (makeRequest c ctx http.MethodPatch _ (Some body)) as [req2|e2] eqn:E2;
        [|reflexivity].
      destruct (makeRequest_other c ctx http.MethodPatch http.MethodGet _ (Some body)
                  None req2 eq_refl eq_refl E2) as (req & Hreq & _).
      rewrite Hreq in E. discriminate E.
Qed.

Lemma empty_zone_addresses_collection_witness :
  map http.URL (requests (ReplaceRecords no_body
                            (client_of (always (response_with 200 ""))) background "" []))
  = map http.URL (requests (ListZones (client_of (always (response_with 200 "")))
                                      background)).
Proof.
  exact (proj2 (empty_zone_addresses_collection no_body
                  (client_of (always (response_with 200 ""))) background [] "[]") eq_refl).
Defined.

(** ** The API key and the headers *)

Lemma makeRequest_rekeyed (c : Client) (k : string) ctx method ep b :
  match makeRequest c ctx method ep b, makeRequest (rekeyed c k) ctx method ep b with
  | Ok r1, Ok r2 => without_key r1 = without_key r2
  | Err e1, Err e2 => e1 = e2
  | _, _ => False
  end.
Proof.
  unfold makeRequest.
  destruct (http.NewRequestWithContext ctx method (url.String_ ep) b) as [req|e];
    [|reflexivity].
  unfold without_key, http.Set_. cbn [http.Header_ http.with_Header apiKey rekeyed].
  rewrite !delete_insert_eq. reflexivity.
Qed.

Lemma without_key_query (r : http.Request) (q : string) :
  without_key (http.with_URL r (url.with_RawQuery (http.URL r) q))
  = http.with_URL (without_key r) (url.with_RawQuery (http.URL (without_key r)) q).
Proof. reflexivity. Qed.

Ltac same_requests c k ctx method ep b :=
  pose proof (makeRequest_rekeyed c k ctx method ep b) as H;
  cbn [BaseURL HTTPClient rekeyed];
  destruct (makeRequest c ctx method ep b) as [r1|e1],
           (makeRequest (rekeyed c k) ctx method ep b) as [r2|e2];
  try contradiction; try reflexivity.

(** X6.  The API key of a client reaches its requests in the header
    [X-Api-Key] only: with that header removed, the requests of a client
    and of the same client under another key are the same. *)
Theorem key_only_in_header jm (c : Client) (k : string) ctx zoneID recordID records
    filter :
  map without_key (requests (ListZones c ctx))
  = map without_key (requests (ListZones (rekeyed c k) ctx))
  /\ map without_key (requests (ReplaceRecords jm c ctx zoneID records))
     = map without_key (requests (ReplaceRecords jm (rekeyed c k) ctx zoneID records))
  /\ map without_key (requests (GetRecords c ctx zoneID filter))
     = map without_key (requests (GetRecords (rekeyed c k) ctx zoneID filter))
  /\ map without_key (requests (RemoveRecord c ctx zoneID recordID))
     = map without_key (requests (RemoveRecord (rekeyed c k) ctx zoneID recordID)).
Proof.
  split; [|split; [|split]].
  - unfold ListZones.
    same_requests c k ctx http.MethodGet (url.JoinPath (BaseURL c) ["v1"; "zones"])
                  (@None string).
    destruct (http.Do _ r1), (http.Do _ r2); cbn; rewrite H; reflexivity.
  - unfold ReplaceRecords. destruct (jm records) as [body|e]; [|reflexivity].
    same_requests c k ctx http.MethodPatch
                  (url.JoinPath (BaseURL c) ["v1"; "zones"; zoneID]) (Some body).
    destruct (http.Do _ r1), (http.Do _ r2); cbn; rewrite H; reflexivity.
  - unfold GetRecords.
    same_requests c k ctx http.MethodGet
                  (url.JoinPath (BaseURL c) ["v1"; "zones"; zoneID]) (@None string).
    destruct filter as [f|]; unfold apply_filter, querystring.Values;
      destruct (http.Do _ _), (http.Do _ _); cbn [requests map deferred_Close];
      rewrite ?without_key_query, H; reflexivity.
  - unfold RemoveRecord.
    same_requests c k ctx http.MethodDelete
                  (url.JoinPath (BaseURL c) ["v1"; "zones"; zoneID; "records"; recordID])
                  (@None string).
    destruct (http.Do _ r1), (http.Do _ r2); cbn; rewrite H; reflexivity.
Qed.

Lemma ToLower_cons c (s : string) :
  gostrings.ToLower (String c s) = String (to_lower c) (gostrings.ToLower s).
Proof. reflexivity. Qed.

Lemma valid_to_lower c :
  http.validHeaderFieldByte (to_lower c) = http.validHeaderFieldByte c.
Proof. all_bytes c; reflexivity. Qed.

Lemma case_to_lower c :
  to_upper (to_lower c) = to_upper c /\ to_lower (to_lower c) = to_lower c
  /\ to_lower (to_upper c) = to_lower c
  /\ Ascii.eqb (to_upper c) "-" = Ascii.eqb c "-"
  /\ Ascii.eqb (to_lower c) "-" = Ascii.eqb c "-".
Proof. all_bytes c; repeat split; reflexivity. Qed.

Lemma valid_ToLower (s : string) :
  gostrings.forall_bytes http.validHeaderFieldByte (gostrings.ToLower s)
  = gostrings.forall_bytes http.validHeaderFieldByte s.
Proof.
  induction s as [|c s IH]; [reflexivity|].
  rewrite ToLower_cons. cbn [gostrings.forall_bytes]. rewrite valid_to_lower, IH.
  reflexivity.
Qed.

Lemma canonical_case_ToLower up (s : string) :
  http.canonical_case up (gostrings.ToLower s) = http.canonical_case up s.
Proof.
  revert up. induction s as [|c s IH]; intros up; [reflexivity|].
  rewrite ToLower_cons. cbn [http.canonical_case].
  destruct (case_to_lower c) as (H1 & H2 & _).
  destruct up; rewrite ?H1, ?H2, IH; reflexivity.
Qed.

Lemma ToLower_canonical_case up (s : string) :
  gostrings.ToLower (http.canonical_case up s) = gostrings.ToLower s.
Proof.
  revert up. induction s as [|c s IH]; intros up; [reflexivity|].
  cbn [http.canonical_case]. rewrite !ToLower_cons, IH.
  destruct (case_to_lower c) as (_ & H2 & H3 & _).
  destruct up; rewrite ?H2, ?H3; reflexivity.
Qed.

(** The canonical form of a header name depends only on its lower-case
    form, and keeps it. *)
Lemma Canonical_ToLower (s : string) :
  gostrings.forall_bytes http.validHeaderFieldByte s = true ->
  http.CanonicalMIMEHeaderKey (gostrings.ToLower s) = http.CanonicalMIMEHeaderKey s.
Proof.
  intros H. unfold http.CanonicalMIMEHeaderKey.
  rewrite valid_ToLower, H. apply canonical_case_ToLower.
Qed.

Lemma ToLower_Canonical (s : string) :
  gostrings.ToLower (http.CanonicalMIMEHeaderKey s) = gostrings.ToLower s.
Proof.
  unfold http.CanonicalMIMEHeaderKey.
  destruct (gostrings.forall_bytes http.validHeaderFieldByte s); [|reflexivity].
  apply ToLower_canonical_case.
Qed.

Lemma Canonical_of_lower (name lower : string) :
  gostrings.forall_bytes http.validHeaderFieldByte lower = true ->
  gostrings.ToLower name = lower ->
  http.CanonicalMIMEHeaderKey name = http.CanonicalMIMEHeaderKey lower.
Proof.
  intros Hv Hl. rewrite <- Hl in *. symmetry. apply Canonical_ToLower.
  rewrite <- valid_ToLower. exact Hv.
Qed.

Lemma Canonical_not (name key : string) :
  String.eqb (gostrings.ToLower name) (gostrings.ToLower key) = false ->
  key <> http.CanonicalMIMEHeaderKey name.
Proof.
  intros H E. apply String.eqb_neq in H. apply H.
  rewrite E, ToLower_Canonical. reflexivity.
Qed.

(** X7.  The headers of a request of [makeRequest], read with [Get] under a
    name in any capitalisation: [application/json] for [Accept] and
    [Content-Type], the API key for [X-API-Key], and nothing for any other
    name. *)
Theorem headers_exactly_three (c : Client) ctx method endpoint b req (name : string) :
  makeRequest c ctx method endpoint b = Ok req ->
  http.Get (http.Header_ req) name = expected_header (apiKey c) name.
Proof.
  unfold makeRequest. intros H.
  destruct (http.NewRequestWithContext ctx method (url.String_ endpoint) b)
    as [req0|e] eqn:E; [|discriminate H].
  injection H as <-. rewrite (NewRequestWithContext_Header _ _ _ _ _ E).
  generalize (apiKey c). intros k.
  unfold expected_header, http.Get, http.Set_.
  cbn [http.Header_ http.with_Header].
  change (http.CanonicalMIMEHeaderKey "Accept") with "Accept".
  change (http.CanonicalMIMEHeaderKey "Content-Type") with "Content-Type".
  change (http.CanonicalMIMEHeaderKey "X-API-Key") with "X-Api-Key".
  destruct (String.eqb (gostrings.ToLower name) "accept") eqn:Ha.
  { apply String.eqb_eq in Ha.
    rewrite (Canonical_of_lower name "accept" eq_refl Ha).
    vm_compute. reflexivity. }
  destruct (String.eqb (gostrings.ToLower name) "content-type") eqn:Hc.
  { apply String.eqb_eq in Hc.
    rewrite (Canonical_of_lower name "content-type" eq_refl Hc).
    vm_compute. reflexivity. }
  destruct (String.eqb (gostrings.ToLower name) "x-api-key") eqn:Hk.
  { apply String.eqb_eq in Hk.
    rewrite (Canonical_of_lower name "x-api-key" eq_refl Hk).
    vm_compute. reflexivity. }
  cbn [orb].
  rewrite !lookup_insert_ne, lookup_empty; [reflexivity| | |].
  - apply (Canonical_not name "Accept" Ha).
  - apply (Canonical_not name "Content-Type" Hc).
  - apply (Canonical_not name "X-Api-Key" Hk).
Qed.

Lemma headers_exactly_three_witness :
  exists req,
    makeRequest (client_of (always (response_with 200 ""))) background "GET"
                parsedBaseURL None = Ok req
    /\ http.Get (http.Header_ req) "x-API-key" = "key"
    /\ http.Get (http.Header_ req) "Authorization" = "".
Proof.
  eexists. split; [vm_compute; reflexivity|]. split.
  - exact (headers_exactly_three (client_of (always (response_with 200 ""))) background
             "GET" parsedBaseURL None _ "x-API-key" eq_refl).
  - exact (headers_exactly_three (client_of (always (response_with 200 ""))) background
             "GET" parsedBaseURL None _ "Authorization" eq_refl).
Defined.

(** ** Bodies the decoders do not accept *)

(** X8.  A response with status 200 and an empty body is an error for
    [ListZones] and [GetRecords]: they return the decoder's [io.EOF], or the
    read error of the body, under the prefix [failed to parse response: ]. *)
Theorem empty_success_body_fails (c : Client) ctx zoneID filter (resp : http.Response) :
  http.StatusCode resp = http.StatusOK ->
  io.chunks (http.Body resp) = [] ->
  io.closed (http.Body resp) = false ->
  let e := wrapError "failed to parse response: "
             (default io_EOF (io.fault (http.Body resp))) in
  (answer c (ListZones c ctx) = Some resp -> returned (ListZones c ctx) = Err e)
  /\ (answer c (GetRecords c ctx zoneID filter) = Some resp ->
      returned (GetRecords c ctx zoneID filter) = Err e).
Proof.
  destruct resp as [sc [chunks fault closed]]. cbn [http.StatusCode http.Body io.chunks
    io.closed io.fault]. intros -> -> ->.
  split; intros Ha.
  - destruct (ListZones_answered c ctx _ Ha) as [req ->].
    destruct fault; reflexivity.
  - destruct (GetRecords_answered c ctx zoneID filter _ Ha) as [req ->].
    destruct fault; reflexivity.
Qed.

Lemma empty_success_body_fails_witness :
  returned (ListZones (client_of (always (http.mkResponse 200 (io.mkBody [] None false))))
                      background)
  = Err (wrapError "failed to parse response: " io_EOF).
Proof.
  exact (proj1 (empty_success_body_fails
                  (client_of (always (http.mkResponse 200 (io.mkBody [] None false))))
                  background "z" None (http.mkResponse 200 (io.mkBody [] None false))
                  eq_refl eq_refl eq_refl) eq_refl).
Defined.

(** X9.  An error body that is valid JSON but not a list (an object, say),
    or that has text after its first value, is not decoded: the
    [ClientError] of [readError] then has no errors, the status code, and
    the whole body as its message. *)
Theorem error_body_not_a_list (b : io.Body) (sc : Z) (data : string) (v : json.value)
    (rest : string) :
  io.closed b = false ->
  String.concat "" (io.chunks b) = data ->
  json.scan_value data = json.Scanned v rest ->
  is_list v = false \/ String.eqb (json.skip_space rest) "" = false ->
  fst (readError b sc) = Some (ClientErrorPtr (mkClientError [] sc data)).
Proof.
  intros Hopen Hdata Hscan Hv.
  rewrite (readError_unfold b _ sc _ _ (ReadAll_open b Hopen)), Hdata.
  unfold json.Unmarshal. rewrite Hscan.
  destruct (String.eqb (json.skip_space rest) ""); [|reflexivity].
  destruct Hv as [Hv|Hv]; [|discriminate Hv].
  destruct v; try discriminate Hv; reflexivity.
Qed.

Lemma error_body_not_a_list_witness :
  fst (readError (io.mkBody ["{" ++ quoted "message" ++ ":" ++ quoted "invalid key" ++ "}"]
                            None false) 401)
  = Some (ClientErrorPtr
            (mkClientError [] 401
               ("{" ++ quoted "message" ++ ":" ++ quoted "invalid key" ++ "}"))).
Proof.
  refine (error_body_not_a_list
            (io.mkBody ["{" ++ quoted "message" ++ ":" ++ quoted "invalid key" ++ "}"]
                       None false)
            401 _ (json.Object [("message", json.Str "invalid key")]) "" eq_refl eq_refl
            _ _).
  - vm_compute. reflexivity.
  - left. reflexivity.
Defined.

(** ** The response body as a stream

    The scan of a text is settled by a prefix of it: what the decoder
    finds does not depend on where the reads of the body fall. *)

Lemma skip_space_app (a b : string) :
  json.skip_space a = ""
  \/ exists c r, json.skip_space a = String c r
                 /\ json.skip_space (a ++ b) = String c (r ++ b).
Proof.
  induction a as [|c a IH]; [left; reflexivity|].
  rewrite app_cons. cbn [json.skip_space].
  destruct (json.isSpace c); [exact IH|]. right. eauto.
Qed.

Lemma span_digits_app (a b : string) :
  snd (json.span_digits a) <> "" ->
  json.span_digits (a ++ b)
  = (fst (json.span_digits a), snd (json.span_digits a) ++ b).
Proof.
  induction a as [|c a IH]; [intros H; contradiction H; reflexivity|].
  rewrite app_cons. cbn [json.span_digits].
  destruct (is_digit c); [|reflexivity].
  destruct (json.span_digits a) as [ds r]. cbn [fst snd] in *.
  intros H. rewrite (IH H). reflexivity.
Qed.

Lemma scan_digits1_app (a b : string) :
  extends never_closed (json.scan_digits1 a) (json.scan_digits1 (a ++ b)) b.
Proof.
  destruct a as [|c a]; [exact I|]. rewrite app_cons. unfold json.scan_digits1.
  destruct (is_digit c) eqn:E; [|reflexivity].
  pose proof (span_digits_app (String c a) b) as H. rewrite app_cons in H.
  destruct (json.span_digits (String c a)) as [ds r]. cbn [fst snd extends] in *.
  intros [Hr|Hr]; [|discriminate Hr]. rewrite (H Hr). reflexivity.
Qed.

Lemma scan_int_app (a b : string) :
  extends never_closed (json.scan_int a) (json.scan_int (a ++ b)) b.
Proof.
  destruct a as [|c a]; [exact I|]. rewrite app_cons. unfold json.scan_int.
  destruct (Ascii.eqb c "0"); [intros _; reflexivity|].
  destruct (is_digit c) eqn:E; [|reflexivity].
  pose proof (span_digits_app (String c a) b) as H. rewrite app_cons in H.
  destruct (json.span_digits (String c a)) as [ds r]. cbn [fst snd extends] in *.
  intros [Hr|Hr]; [|discriminate Hr]. rewrite (H Hr). reflexivity.
Qed.

Lemma scan_frac_app (a b : string) :
  extends never_closed (json.scan_frac a) (json.scan_frac (a ++ b)) b.
Proof.
  destruct a as [|c a]; [intros [H|H]; [contradiction H; reflexivity | discriminate H]|].
  rewrite app_cons. unfold json.scan_frac.
  destruct (Ascii.eqb c "."); [|intros _; reflexivity].
  pose proof (scan_digits1_app a b) as H.
  destruct (json.scan_digits1 a) as [ds r| |]; cbn [extends] in *.
  - intros Hr. rewrite (H Hr). reflexivity.
  - exact I.
  - rewrite H. reflexivity.
Qed.

Lemma scan_exp_app (a b : string) :
  extends never_closed (json.scan_exp a) (json.scan_exp (a ++ b)) b.
Proof.
  destruct a as [|c a]; [intros [H|H]; [contradiction H; reflexivity | discriminate H]|].
  rewrite app_cons. unfold json.scan_exp.
  destruct (byte_in c "eE"); [|intros _; reflexivity].
  destruct a as [|d a]; [exact I|]. rewrite app_cons.
  destruct (byte_in d "+-").
  - pose proof (scan_digits1_app a b) as H.
    destruct (json.scan_digits1 a) as [ds r| |]; cbn [extends] in *.
    + intros Hr. rewrite (H Hr). reflexivity.
    + exact I.
    + rewrite H. reflexivity.
  - pose proof (scan_digits1_app (String d a) b) as H. rewrite app_cons in H.
    destruct (json.scan_digits1 (String d a)) as [ds r| |]; cbn [extends] in *.
    + intros Hr. rewrite (H Hr). reflexivity.
    + exact I.
    + rewrite H. reflexivity.
Qed.

Lemma frac_exp_empty :
  json.scan_frac "" = json.Scanned "" "" /\ json.scan_exp "" = json.Scanned "" "".
Proof. split; reflexivity. Qed.

Lemma scan_number_body_app (sign a b : string) :
  extends never_closed
    (match json.scan_int a with
     | json.Scanned i s2 =>
         match json.scan_frac s2 with
         | json.Scanned f s3 =>
             match json.scan_exp s3 with
             | json.Scanned e s4 => json.Scanned (sign ++ i ++ f ++ e) s4
             | json.Truncated => json.Truncated
             | json.Invalid => json.Invalid
             end
         | json.Truncated => json.Truncated
         | json.Invalid => json.Invalid
         end
     | json.Truncated => json.Truncated
     | json.Invalid => json.Invalid
     end)
    (match json.scan_int (a ++ b) with
     | json.Scanned i s2 =>
         match json.scan_frac s2 with
         | json.Scanned f s3 =>
             match json.scan_exp s3 with
             | json.Scanned e s4 => json.Scanned (sign ++ i ++ f ++ e) s4
             | json.Truncated => json.Truncated
             | json.Invalid => json.Invalid
             end
         | json.Truncated => json.Truncated
         | json.Invalid => json.Invalid
         end
     | json.Truncated => json.Truncated
     | json.Invalid => json.Invalid
     end) b.
Proof.
  pose proof (scan_int_app a b) as Hi.
  destruct (json.scan_int a) as [i s2| |]; cbn [extends] in Hi;
    [|exact I|rewrite Hi; reflexivity].
  destruct s2 as [|c2 s2].
  { cbn. intros [H|H]; [contradiction H; reflexivity | discriminate H]. }
  rewrite Hi by (left; discriminate).
  pose proof (scan_frac_app (String c2 s2) b) as Hf.
  destruct (json.scan_frac (String c2 s2)) as [f s3| |]; cbn [extends] in Hf;
    [|exact I|rewrite Hf; reflexivity].
  destruct s3 as [|c3 s3].
  { cbn. intros [H|H]; [contradiction H; reflexivity | discriminate H]. }
  rewrite Hf by (left; discriminate).
  pose proof (scan_exp_app (String c3 s3) b) as He.
  destruct (json.scan_exp (String c3 s3)) as [e s4| |]; cbn [extends] in *;
    [|exact I|rewrite He; reflexivity].
  intros Hr. rewrite (He Hr). reflexivity.
Qed.

Lemma scan_number_app (a b : string) :
  extends never_closed (json.scan_number a) (json.scan_number (a ++ b)) b.
Proof.
  unfold json.scan_number.
  destruct a as [|c a].
  - cbn. exact I.
  - rewrite app_cons. destruct (Ascii.eqb c "-").
    + apply scan_number_body_app.
    + rewrite <- app_cons. apply scan_number_body_app.
Qed.

Lemma extends_map {A B : Type} (g : A -> B) (ra r : json.scan A) (b : string)
    (ca : A -> bool) (cb : B -> bool) :
  (forall x, cb (g x) = true -> ca x = true) ->
  extends ca ra r b ->
  extends cb
    (match ra with
     | json.Scanned a rest => json.Scanned (g a) rest
     | json.Truncated => json.Truncated
     | json.Invalid => json.Invalid
     end)
    (match r with
     | json.Scanned a rest => json.Scanned (g a) rest
     | json.Truncated => json.Truncated
     | json.Invalid => json.Invalid
     end) b.
Proof.
  intros Hc. destruct ra as [x rest| |]; cbn [extends].
  - intros H [Hr|Hr]; [rewrite H by (left; exact Hr) | rewrite H by (right; auto)];
      reflexivity.
  - intros _. exact I.
  - intros ->. reflexivity.
Qed.

Lemma scan_string_app (a b : string) :
  extends always_closed (json.scan_string a) (json.scan_string (a ++ b)) b.
Proof.
  remember (String.length a) as n eqn:Hn. revert a Hn.
  induction n as [n IH] using lt_wf_ind. intros a ->.
  assert (Hrec : forall (g : string -> string) s,
             String.length s < String.length a ->
             extends always_closed
               (match json.scan_string s with
                | json.Scanned raw rest => json.Scanned (g raw) rest
                | other => other
                end)
               (match json.scan_string (s ++ b) with
                | json.Scanned raw rest => json.Scanned (g raw) rest
                | other => other
                end) b).
  { intros g s Hs. pose proof (IH _ Hs s eq_refl) as H.
    destruct (json.scan_string s) as [raw rest| |]; cbn [extends] in *.
    - intros _. rewrite H by (right; reflexivity). reflexivity.
    - exact I.
    - rewrite H. reflexivity. }
  destruct a as [|c a]; [exact I|]. rewrite app_cons. cbn [json.scan_string].
  destruct (Ascii.eqb c dquote); [intros _; reflexivity|].
  destruct (N_of_ascii c <? 32)%N; [reflexivity|].
  destruct (Ascii.eqb c "\").
  - destruct a as [|e a]; [exact I|]. rewrite app_cons.
    destruct (byte_in e "\/bfnrt" || Ascii.eqb e dquote).
    + apply Hrec. cbn. lia.
    + destruct (Ascii.eqb e "u"); [|reflexivity].
      destruct a as [|h1 [|h2 [|h3 [|h4 a]]]]; rewrite ?app_cons;
        try exact I.
      * change ("" ++ b) with b.
        destruct (url.ishex h1) eqn:E1; [exact I|].
        destruct b as [|x1 [|x2 [|x3 b]]]; cbn [extends]; rewrite ?E1; reflexivity.
      * change ("" ++ b) with b.
        destruct (url.ishex h1 && url.ishex h2) eqn:E1; [exact I|].
        destruct b as [|x1 [|x2 b]]; cbn [extends]; rewrite ?E1; reflexivity.
      * change ("" ++ b) with b.
        destruct (url.ishex h1 && url.ishex h2 && url.ishex h3) eqn:E1; [exact I|].
        destruct b as [|x1 b]; cbn [extends]; rewrite ?E1; reflexivity.
      * destruct (url.ishex h1 && url.ishex h2 && url.ishex h3 && url.ishex h4);
          [|reflexivity].
        apply Hrec. cbn. lia.
  - apply Hrec. cbn. lia.
Qed.

Lemma expect_app (lit a b : string) :
  extends always_closed (json.expect lit a) (json.expect lit (a ++ b)) b.
Proof.
  revert a. induction lit as [|c lit IH]; intros a; [intros _; reflexivity|].
  destruct a as [|d a]; [exact I|]. rewrite app_cons. cbn [json.expect].
  destruct (Ascii.eqb c d); [apply IH | reflexivity].
Qed.

Lemma skip_space_cons (a b : string) c r :
  json.skip_space a = String c r -> json.skip_space (a ++ b) = String c (r ++ b).
Proof.
  intros H. destruct (skip_space_app a b) as [E|(c' & r' & E & E')]; congruence.
Qed.

Lemma extends_closed {A : Type} (c1 c2 : A -> bool) (ra r : json.scan A) (b : string) :
  (forall x, c2 x = true -> c1 x = true) ->
  extends c1 ra r b -> extends c2 ra r b.
Proof.
  intros Hc. destruct ra as [x rest| |]; cbn [extends]; auto.
  intros H [Hr|Hr]; apply H; auto.
Qed.

Lemma extends_container (ra r : json.scan json.value) (b : string) :
  extends always_closed ra r b -> extends delimited ra r b.
Proof. apply extends_closed. reflexivity. Qed.

Lemma skip_space_rest (s : string) c r : json.skip_space s = String c r -> s <> "".
Proof. intros H ->. discriminate H. Qed.

Lemma parse_app (f : nat) :
  (forall d a b,
      extends delimited (json.parse_value f d a) (json.parse_value f d (a ++ b)) b)
  /\ (forall d a b acc,
         extends always_closed (json.parse_elements f d a acc)
           (json.parse_elements f d (a ++ b) acc) b)
  /\ (forall d a b acc,
         extends always_closed (json.parse_members f d a acc)
           (json.parse_members f d (a ++ b) acc) b).
Proof.
  induction f as [|f (IHv & IHe & IHm)]; [repeat split; reflexivity|].
  split; [|split].
  - intros d a b. cbn [json.parse_value].
    destruct (json.skip_space a) as [|c r] eqn:E; [exact I|].
    rewrite (skip_space_cons a b c r E).
    destruct (Ascii.eqb c "{").
    { destruct (json.maxNestingDepth <? N.succ d)%N; [reflexivity|].
      destruct (json.skip_space r) as [|c' r'] eqn:E'; [exact I|].
      rewrite (skip_space_cons r b c' r' E').
      destruct (Ascii.eqb c' "}"); [intros _; reflexivity|].
      apply extends_container. rewrite <- app_cons. apply IHm. }
    destruct (Ascii.eqb c "[").
    { destruct (json.maxNestingDepth <? N.succ d)%N; [reflexivity|].
      destruct (json.skip_space r) as [|c' r'] eqn:E'; [exact I|].
      rewrite (skip_space_cons r b c' r' E').
      destruct (Ascii.eqb c' "]"); [intros _; reflexivity|].
      apply extends_container. rewrite <- app_cons. apply IHe. }
    destruct (Ascii.eqb c dquote).
    { apply (extends_map (fun raw => json.Str (json.unquote raw)) _ _ b always_closed);
        [reflexivity | apply scan_string_app]. }
    destruct (Ascii.eqb c "-" || is_digit c).
    { rewrite <- app_cons.
      apply (extends_map json.Number _ _ b never_closed);
        [intros x H; discriminate H | apply scan_number_app]. }
    destruct (Ascii.eqb c "t").
    { apply (extends_map (fun _ => json.Bool true) _ _ b always_closed);
        [reflexivity | apply expect_app]. }
    destruct (Ascii.eqb c "f").
    { apply (extends_map (fun _ => json.Bool false) _ _ b always_closed);
        [reflexivity | apply expect_app]. }
    destruct (Ascii.eqb c "n").
    { apply (extends_map (fun _ => json.Null) _ _ b always_closed);
        [reflexivity | apply expect_app]. }
    reflexivity.
  - intros d a b acc. cbn [json.parse_elements].
    pose proof (IHv d a b) as H.
    destruct (json.parse_value f d a) as [v rest| |]; cbn [extends] in H;
      [|exact I|rewrite H; reflexivity].
    destruct (json.skip_space rest) as [|c r] eqn:E; [exact I|].
    rewrite H by (left; exact (skip_space_rest _ _ _ E)).
    rewrite (skip_space_cons rest b c r E).
    destruct (Ascii.eqb c ","); [apply IHe|].
    destruct (Ascii.eqb c "]"); [intros _; reflexivity | reflexivity].
  - intros d a b acc. cbn [json.parse_members].
    destruct (json.skip_space a) as [|c r] eqn:E; [exact I|].
    rewrite (skip_space_cons a b c r E).
    destruct (Ascii.eqb c dquote); [|reflexivity].
    pose proof (scan_string_app r b) as Hs.
    destruct (json.scan_string r) as [raw rest| |]; cbn [extends] in Hs;
      [|exact I|rewrite Hs; reflexivity].
    rewrite Hs by (right; reflexivity).
    destruct (json.skip_space rest) as [|colon r'] eqn:E'; [exact I|].
    rewrite (skip_space_cons rest b colon r' E').
    destruct (negb (Ascii.eqb colon ":")); [reflexivity|].
    pose proof (IHv d r' b) as H.
    destruct (json.parse_value f d r') as [v rest'| |]; cbn [extends] in H;
      [|exact I|rewrite H; reflexivity].
    destruct (json.skip_space rest') as [|c'' r''] eqn:E''; [exact I|].
    rewrite H by (left; exact (skip_space_rest _ _ _ E'')).
    rewrite (skip_space_cons rest' b c'' r'' E'').
    destruct (Ascii.eqb c'' ","); [apply IHm|].
    destruct (Ascii.eqb c'' "}"); [intros _; reflexivity | reflexivity].
Qed.

Lemma length_app (a b : string) :
  String.length (a ++ b) = String.length a + String.length b.
Proof. induction a as [|c a IH]; [reflexivity|]. rewrite app_cons. cbn. lia. Qed.

(** The scan of a text and the scan of a longer text agree. *)
Lemma scan_value_app (a b : string) :
  extends delimited (json.scan_value a) (json.scan_value (a ++ b)) b.
Proof.
  rewrite <- (scan_value_fuel a (2 * String.length b)).
  replace (2 * String.length a + 2 + 2 * String.length b)
    with (2 * String.length (a ++ b) + 2) by (rewrite length_app; lia).
  apply (proj1 (parse_app _)).
Qed.

(** The decoder finds the first value of the stream, however the stream
    is cut into chunks. *)
Lemma readValue_complete (v : json.value) (rest : string) (chunks : list string) :
  json.is_container v = true ->
  forall buf,
    json.scan_value (buf ++ String.concat "" chunks) = json.Scanned v rest ->
    exists buf' unread, json.readValue buf chunks = (json.Complete v, buf', unread).
Proof.
  intros Hv. induction chunks as [|c chunks IH]; intros buf Hscan.
  - cbn [String.concat] in Hscan. rewrite append_empty in Hscan.
    cbn [json.readValue]. unfold json.look. rewrite Hscan, Hv. cbn. eauto.
  - pose proof (scan_value_app buf (String.concat "" (c :: chunks))) as H.
    rewrite Hscan in H.
    assert (Hnext : exists buf' unread,
               json.readValue (buf ++ c) chunks = (json.Complete v, buf', unread)).
    { apply IH. rewrite <- Hscan. f_equal.
      destruct chunks; cbn [String.concat]; rewrite <- ?app_assoc_string;
        rewrite ?append_empty; reflexivity. }
    cbn [json.readValue]. unfold json.look.
    destruct (json.scan_value buf) as [v' rest'| |]; cbn [extends] in H.
    + destruct (json.is_container v' || negb (String.eqb rest' "")) eqn:E.
      * assert (Hsame : json.Scanned v rest
                        = json.Scanned v' (rest' ++ String.concat "" (c :: chunks))).
        { apply H. apply orb_true_iff in E. destruct E as [E|E].
          - right. destruct v'; try discriminate E; reflexivity.
          - left. intros ->. discriminate E. }
        injection Hsame as -> _. eauto.
      * exact Hnext.
    + exact Hnext.
    + discriminate H.
Qed.

(** X10.  On a response with status 200 whose body starts with a JSON array
    or object, [ListZones] and [GetRecords] return what that value decodes
    to, however the body is cut into reads, whatever follows the value and
    whether or not the body ends in a read error. *)
Theorem success_body_split_irrelevant (c : Client) ctx zoneID filter
    (chunks : list string) (fault : option error) (v : json.value) (rest : string) :
  json.scan_value (String.concat "" chunks) = json.Scanned v rest ->
  json.is_container v = true ->
  let resp := http.mkResponse 200 (io.mkBody chunks fault false) in
  (answer c (ListZones c ctx) = Some resp ->
   returned (ListZones c ctx)
   = match json.decode_Zones [] v with
     | (zones, None) => Ok zones
     | (_, Some e) => Err (wrapError "failed to parse response: " e)
     end)
  /\ (answer c (GetRecords c ctx zoneID filter) = Some resp ->
      returned (GetRecords c ctx zoneID filter)
      = match json.decode_CustomerZone json.zeroCustomerZone v with
        | (zone, None) => Ok (Records zone)
        | (_, Some e) => Err (wrapError "failed to parse response: " e)
        end).
Proof.
  intros Hscan Hcont resp.
  destruct (readValue_complete v rest chunks Hcont "" Hscan) as (buf & unread & Hread).
  split; intros Ha.
  - destruct (ListZones_answered c ctx _ Ha) as [req ->].
    unfold resp, json.Decode. cbn [http.StatusCode http.Body io.closed io.chunks io.fault].
    rewrite Hread. cbn.
    destruct (json.decode_Zones [] v) as [zs [e|]]; reflexivity.
  - destruct (GetRecords_answered c ctx zoneID filter _ Ha) as [req ->].
    unfold resp, json.Decode. cbn [http.StatusCode http.Body io.closed io.chunks io.fault].
    rewrite Hread. cbn.
    destruct (json.decode_CustomerZone json.zeroCustomerZone v) as [z [e|]]; reflexivity.
Qed.

Lemma success_body_split_irrelevant_witness :
  returned (ListZones
              (client_of (always (http.mkResponse 200
                 (io.mkBody ["[{" ++ quoted "id" ++ ":"; quoted "z1" ++ "}"; "] trailing"]
                            (Some io_ErrUnexpectedEOF) false))))
              background)
  = Ok [mkZone "z1" "" ""].
Proof.
  refine (proj1 (success_body_split_irrelevant
                   (client_of (always (http.mkResponse 200
                      (io.mkBody ["[{" ++ quoted "id" ++ ":"; quoted "z1" ++ "}"; "] trailing"]
                                 (Some io_ErrUnexpectedEOF) false))))
                   background "z" None
                   ["[{" ++ quoted "id" ++ ":"; quoted "z1" ++ "}"; "] trailing"]
                   (Some io_ErrUnexpectedEOF)
                   (json.Array [json.Object [("id", json.Str "z1")]]) " trailing"
                   _ eq_refl) eq_refl).
  vm_compute. reflexivity.
Defined.

(** ** Request bodies *)

Lemma NewRequestWithContext_body ctx method rawURL body req :
  http.NewRequestWithContext ctx method rawURL body = Ok req ->
  http.ReqBody req = body.
Proof.
  unfold http.NewRequestWithContext.
  destruct (negb _); [discriminate|]. destruct ctx; [|discriminate].
  destruct (url.Parse rawURL); [|discriminate]. intros H. injection H as <-. reflexivity.
Qed.

Lemma makeRequest_body c ctx method endpoint body req :
  makeRequest c ctx method endpoint body = Ok req -> http.ReqBody req = body.
Proof.
  unfold makeRequest.
  destruct (http.NewRequestWithContext _ _ _ _) as [r|] eqn:E; [|discriminate].
  intros H. injection H as <-. exact (NewRequestWithContext_body _ _ _ _ _ E).
Qed.

Lemma apply_filter_body req0 filter req :
  apply_filter req0 filter = Ok req -> http.ReqBody req = http.ReqBody req0.
Proof.
  unfold apply_filter. destruct filter as [f|].
  - destruct (querystring.Values f); [|discriminate]. intros H. injection H as <-.
    reflexivity.
  - intros H. injection H as <-. reflexivity.
Qed.

(** X11.  A request of [ReplaceRecords] is sent only when [json.Marshal]
    succeeded and then carries the marshalled text as its body; the
    requests of the other operations carry no body. *)
Theorem request_bodies jm (c : Client) ctx zoneID recordID records filter
    (req : http.Request) :
  (In req (requests (ReplaceRecords jm c ctx zoneID records)) ->
   exists text, jm records = Ok text /\ http.ReqBody req = Some text)
  /\ (In req (requests (ListZones c ctx)) -> http.ReqBody req = None)
  /\ (In req (requests (GetRecords c ctx zoneID filter)) -> http.ReqBody req = None)
  /\ (In req (requests (RemoveRecord c ctx zoneID recordID)) -> http.ReqBody req = None).
Proof.
  split; [|split; [|split]]; intros H.
  - unfold ReplaceRecords in H. the_request H;
      eexists; (split; [reflexivity|]); eapply makeRequest_body; eassumption.
  - unfold ListZones in H. the_request H; eapply makeRequest_body; eassumption.
  - destruct (GetRecords_request _ _ _ _ _ H) as (req0 & Hmk & Hf).
    rewrite (apply_filter_body _ _ _ Hf). eapply makeRequest_body; eassumption.
  - unfold RemoveRecord in H. the_request H; eapply makeRequest_body; eassumption.
Qed.

Lemma request_bodies_witness :
  exists req,
    requests (ReplaceRecords no_body (client_of (always (response_with 200 "")))
                             background "z" []) = [req]
    /\ exists text, no_body [] = Ok text /\ http.ReqBody req = Some text.
Proof.
  eexists. split; [vm_compute; reflexivity|].
  refine (proj1 (request_bodies no_body (client_of (always (response_with 200 "")))
                   background "z" "r" [] None _) _).
  vm_compute. left. reflexivity.
Defined.
